(** * Tungsten: the triangle-mesh primitive and the thin-sheet BSDF

    A shallow embedding of [src/core/primitives/Mesh.hpp] and of the interface
    of [src/core/bsdfs/ThinSheetBsdf.hpp], followed by the properties the
    specification states about them.

    The mesh code computes on [float].  Its arithmetic is kept behind the
    interface [Scalar], with two instances:
    - [binary32]: IEEE-754 single precision (24-bit significand, round to
      nearest even, signed zeros, infinities, NaN), built on the Standard
      Library's executable [SpecFloat]; this is the arithmetic the compiled
      code runs, and every concrete evaluation below is made with it;
    - [R]: exact real arithmetic, the reading under which the specification's
      algebraic statements (a linear system is solved, an interpolation
      reproduces a vertex) are exact rather than "within tolerance".
    Properties that only depend on the control flow are proved for every
    instance at once. *)

From Stdlib Require Import ZArith List Bool Lia Sorted Relations.
From Stdlib Require Import Reals Lra.
From Stdlib Require Import Floats.SpecFloat.
Import ListNotations.

Set Implicit Arguments.

(** ** Outcomes of a call

    A member function either returns, or stops the program on purpose
    (assert, abort, exception), or has no behaviour the language defines
    (a null [unique_ptr] or raw pointer dereferenced, [operator[]] of a
    [std::vector] past its size). *)

Inductive outcome (A : Type) : Type :=
| Returns (a : A)
| Aborts
| Undefined.

Arguments Returns {A} a.
Arguments Aborts {A}.
Arguments Undefined {A}.

Definition bind {A B : Type} (x : outcome A) (k : A -> outcome B) : outcome B :=
  match x with
  | Returns a => k a
  | Aborts => Aborts
  | Undefined => Undefined
  end.

Declare Scope outcome_scope.
Delimit Scope outcome_scope with outcome.
Notation "x <- e ;; k" := (bind e (fun x => k))
  (at level 61, e at next level, right associativity) : outcome_scope.
Notation "' p <- e ;; k" := (bind e (fun p => k))
  (at level 61, p pattern, e at next level, right associativity) : outcome_scope.

(** [v[i]] on a [std::vector]: defined only for [0 <= i < v.size()]. *)
Definition at_index {A : Type} (v : list A) (i : Z) : outcome A :=
  if (i <? 0)%Z then Undefined
  else match nth_error v (Z.to_nat i) with
       | Some a => Returns a
       | None => Undefined
       end.

(** Case analysis on the condition of the conditional in the goal. *)
Ltac destruct_guard :=
  match goal with |- context [if ?x then _ else _] => destruct x end.

(** ** The scalar interface *)

Class Scalar (F : Type) : Type := {
  fzero : F;                 (* 0.0f *)
  fone : F;                  (* 1.0f *)
  fhalf : F;                 (* 0.5f *)
  fadd : F -> F -> F;
  fsub : F -> F -> F;
  fmul : F -> F -> F;
  fdiv : F -> F -> F;
  fneg : F -> F;
  fabs : F -> F;             (* std::abs *)
  fsqrt : F -> F;            (* std::sqrt *)
  fltb : F -> F -> bool;     (* a < b *)
  fleb : F -> F -> bool;     (* a <= b *)
  flt_1em4 : F -> bool       (* a < 1e-4, the literal being a double *)
}.

Declare Scope scalar_scope.
Delimit Scope scalar_scope with sc.
Notation "a + b" := (fadd a b) : scalar_scope.
Notation "a - b" := (fsub a b) : scalar_scope.
Notation "a * b" := (fmul a b) : scalar_scope.
Notation "a / b" := (fdiv a b) : scalar_scope.
Notation "- a" := (fneg a) : scalar_scope.
Notation "a <? b" := (fltb a b) : scalar_scope.
Notation "a <=? b" := (fleb a b) : scalar_scope.
Notation "a >? b" := (fltb b a) : scalar_scope.

(** *** IEEE-754 single precision *)

Module Binary32.

Definition prec : Z := 24.
Definition emax : Z := 128.

Definition binary32 : Type := spec_float.

Definition of_Z (z : Z) : binary32 := binary_normalize prec emax z 0 false.

Definition zero : binary32 := S754_zero false.
Definition one : binary32 := Eval vm_compute in of_Z 1.
Definition half : binary32 := Eval vm_compute in SFdiv prec emax (of_Z 1) (of_Z 2).
Definition nan : binary32 := S754_nan.
Definition pinf : binary32 := S754_infinity false.

(** The usual arithmetic conversion of a [float] operand compared with a
    [double]: the same value, in the binary64 format (exact). *)
Definition to_double (x : binary32) : spec_float :=
  match x with
  | S754_finite s m e => binary_round 53 1024 s m e
  | _ => x
  end.

(** The double-precision literal [1e-4]: the binary64 number nearest to
    1/10000, which a correctly rounded division of 1 by 10000 yields. *)
Definition double_1em4 : spec_float :=
  Eval vm_compute in
    SFdiv 53 1024 (binary_normalize 53 1024 1 0 false)
                  (binary_normalize 53 1024 10000 0 false).

Definition lt_1em4 (x : binary32) : bool := SFltb (to_double x) double_1em4.

(** A number, as opposed to an infinity or a NaN. *)
Definition is_finite (x : binary32) : bool :=
  match x with
  | S754_zero _ | S754_finite _ _ _ => true
  | _ => false
  end.

Definition is_nan (x : binary32) : bool :=
  match x with S754_nan => true | _ => false end.

(** A value of the format: a finite number is stored with its canonical
    significand and exponent. *)
Definition well_formed (x : binary32) : bool := valid_binary prec emax x.

(** A number of the format. *)
Definition is_number (x : binary32) : bool := well_formed x && is_finite x.

Definition is_zero (x : binary32) : bool :=
  match x with S754_zero _ => true | _ => false end.

(** The same value: identical, or two zeros (which differ at most in
    sign, and compare equal). *)
Definition same_number (x y : binary32) : Prop :=
  x = y \/ (is_zero x = true /\ is_zero y = true).

(** The real number a number of the format stands for: [+-m * 2^e], and 0
    for a zero.  An infinity or a NaN stands for no real number; the
    function gives 0 there and is only used on numbers. *)
Definition to_R (x : binary32) : R :=
  match x with
  | S754_finite s m e =>
      let v := if (0 <=? e)%Z then IZR (Zpos m * 2 ^ e)
               else (IZR (Zpos m) / IZR (2 ^ (- e)))%R in
      if s then (- v)%R else v
  | _ => 0%R
  end.

End Binary32.

#[export] Instance binary32_scalar : Scalar Binary32.binary32 := {|
  fzero := Binary32.zero;
  fone := Binary32.one;
  fhalf := Binary32.half;
  fadd := SFadd Binary32.prec Binary32.emax;
  fsub := SFsub Binary32.prec Binary32.emax;
  fmul := SFmul Binary32.prec Binary32.emax;
  fdiv := SFdiv Binary32.prec Binary32.emax;
  fneg := SFopp;
  fabs := SFabs;
  fsqrt := SFsqrt Binary32.prec Binary32.emax;
  fltb := SFltb;
  fleb := SFleb;
  flt_1em4 := Binary32.lt_1em4
|}.

(** *** Exact real arithmetic *)

Definition Rltb (x y : R) : bool := if Rlt_dec x y then true else false.
Definition Rleb (x y : R) : bool := if Rle_dec x y then true else false.

#[export] Instance real_scalar : Scalar R := {|
  fzero := 0%R;
  fone := 1%R;
  fhalf := (1 / 2)%R;
  fadd := Rplus;
  fsub := Rminus;
  fmul := Rmult;
  fdiv := Rdiv;
  fneg := Ropp;
  fabs := Rabs;
  fsqrt := sqrt;
  fltb := Rltb;
  fleb := Rleb;
  flt_1em4 := fun x => Rltb x (1 / 10000)%R
|}.


(** ** Vectors

    [math/Vec.hpp] is not among the sources.  [Vec2f] and [Vec3f] stand for
    [Vec<float, 2>] and [Vec<float, 3>]; the operations are the componentwise
    ones, each component computed by one scalar operation per arithmetic
    sign, sums taken left to right. *)

Section Vectors.
Context {F : Type} {SF : Scalar F}.
Local Open Scope scalar_scope.

(** Modelled from the spec: the type [Vec2f] of [math/Vec.hpp]; section 3,
    "texture coordinate (2-vector)"; the members are [x()] and [y()]. *)
Record Vec2f : Type := Vec2 { ux : F; uy : F }.

(** Modelled from the spec: the type [Vec3f] of [math/Vec.hpp]; section 3,
    "position (3-vector)"; the members are [x()], [y()] and [z()]. *)
Record Vec3f : Type := Vec3 { vx : F; vy : F; vz : F }.

(** Modelled from the spec: the operators of [math/Vec.hpp], which the spec
    uses without defining them ("origin + direction x hit distance",
    "sign flipped"): [a + b], [a - b], [-a]. *)
Definition vadd (a b : Vec3f) : Vec3f := Vec3 (vx a + vx b) (vy a + vy b) (vz a + vz b).
Definition vsub (a b : Vec3f) : Vec3f := Vec3 (vx a - vx b) (vy a - vy b) (vz a - vz b).
Definition vneg (a : Vec3f) : Vec3f := Vec3 (- vx a) (- vy a) (- vz a).

(** Modelled from the spec: the operators of [math/Vec.hpp] with a scalar
    ("barycentric-interpolate"): [s*a] with the scalar on the left, [a*s] with
    the scalar on the right, [a/s]. *)
Definition smul (s : F) (a : Vec3f) : Vec3f := Vec3 (s * vx a) (s * vy a) (s * vz a).
Definition vmul (a : Vec3f) (s : F) : Vec3f := Vec3 (vx a * s) (vy a * s) (vz a * s).
Definition vdiv (a : Vec3f) (s : F) : Vec3f := Vec3 (vx a / s) (vy a / s) (vz a / s).

(** Modelled from the spec: [dot], [cross], [lengthSq], [length] and
    [normalized] of [math/Vec.hpp] ("dot(normal, incoming direction)",
    "cross-product", "squared distance", "renormalized"); [normalized] multiplies
    by the reciprocal of the length. *)
Definition dot (a b : Vec3f) : F := vx a * vx b + vy a * vy b + vz a * vz b.
Definition cross (a b : Vec3f) : Vec3f :=
  Vec3 (vy a * vz b - vz a * vy b)
       (vz a * vx b - vx a * vz b)
       (vx a * vy b - vy a * vx b).
Definition lengthSq (a : Vec3f) : F := vx a * vx a + vy a * vy a + vz a * vz a.
Definition length (a : Vec3f) : F := fsqrt (lengthSq a).
Definition normalized (a : Vec3f) : Vec3f := vmul a (fone / length a).

(** Modelled from the spec: [a + b] and [s*a] of [math/Vec.hpp] on
    [Vec2f] ("barycentric-interpolate the three per-vertex UVs"). *)
Definition vadd2 (a b : Vec2f) : Vec2f := Vec2 (ux a + ux b) (uy a + uy b).
Definition smul2 (s : F) (a : Vec2f) : Vec2f := Vec2 (s * ux a) (s * uy a).

(** Modelled from the spec: [MathUtil::triangleArea] is not among the
    sources; "the standard 2-area cross-product formula": half the length
    of the cross product of two edges. *)
Definition triangleArea (a b c : Vec3f) : F :=
  length (cross (vsub b a) (vsub c a)) * fhalf.
End Vectors.

Arguments Vec2f F : clear implicits.
Arguments Vec3f F : clear implicits.

Declare Scope vec_scope.
Delimit Scope vec_scope with vec.
Notation "a ^+ b" := (vadd a b) (at level 50, left associativity) : vec_scope.
Notation "a ^- b" := (vsub a b) (at level 50, left associativity) : vec_scope.
Notation "s *^ a" := (smul s a) (at level 40, left associativity) : vec_scope.
Notation "a ^* s" := (vmul a s) (at level 40, left associativity) : vec_scope.
Notation "a ^/ s" := (vdiv a s) (at level 40, left associativity) : vec_scope.

(** [later] is [earlier] or strictly below it, in single precision. *)
Definition notAbove (earlier later : Binary32.binary32) : Prop :=
  later = earlier \/ SFltb later earlier = true.

(** Vectors of single-precision numbers that hold the same values. *)
Definition same_vec2 (a b : Vec2f Binary32.binary32) : Prop :=
  Binary32.same_number (ux a) (ux b) /\ Binary32.same_number (uy a) (uy b).

Definition same_vec3 (a b : Vec3f Binary32.binary32) : Prop :=
  Binary32.same_number (vx a) (vx b) /\ Binary32.same_number (vy a) (vy b)
  /\ Binary32.same_number (vz a) (vz b).

Definition numbers2 (a : Vec2f Binary32.binary32) : bool :=
  Binary32.is_number (ux a) && Binary32.is_number (uy a).

Definition numbers3 (a : Vec3f Binary32.binary32) : bool :=
  Binary32.is_number (vx a) && Binary32.is_number (vy a) && Binary32.is_number (vz a).

(** ** Data model *)

(** Modelled from the spec: [TriangleI] of [Triangle.hpp], not among the
    sources; section 3, "three vertex indices (integers)"; the members are
    [v0], [v1], [v2]. *)
Record TriangleI : Type := mkTriangleI { v0 : Z; v1 : Z; v2 : Z }.

(** Modelled from the spec: the oracle's triangle, as [prepareForRender]
    builds it for triangle [i], [RTCTriangle(t.v0, t.v1, t.v2, i, 0)];
    section 6, "build(vertices, triangles)". *)
Record RTCTriangle : Type :=
  mkRTCTriangle { rtc_v0 : Z; rtc_v1 : Z; rtc_v2 : Z; rtc_id0 : Z; rtc_id1 : Z }.

Section Data.
Variable F : Type.

(** Modelled from the spec: [Vertex] of [Vertex.hpp], not among the sources;
    section 3, "position (3-vector), shading normal (unit 3-vector), texture
    coordinate (2-vector)"; the accessors are [pos()], [normal()], [uv()]. *)
Record Vertex : Type :=
  mkVertex { pos : Vec3f F; normal : Vec3f F; uv : Vec2f F }.

(** Modelled from the spec: [Ray], whose declaration is not among the
    sources; section 6, "(origin, direction, valid distance interval)"; the
    accessors are [pos()], [dir()], [nearT()], [farT()]. *)
Record Ray : Type :=
  mkRay { ray_pos : Vec3f F; ray_dir : Vec3f F; nearT : F; farT : F }.

(** Modelled from the spec: [Ray::setFarT]; section 4.1, "updates the ray's
    far bound". *)
Definition setFarT (r : Ray) (t : F) : Ray :=
  mkRay (ray_pos r) (ray_dir r) (nearT r) t.

(** Modelled from the spec: [embree::Ray], the oracle's ray; section 6, the
    query "(origin, direction, valid distance interval)" and the answer
    "(hit?, distance, normal, barycentric(u,v), triangleId, secondaryId)" in
    one object.  [e_hit] is its [operator bool]: whether a hit is recorded
    in it. *)
Record ERay : Type := mkERay {
  e_org : Vec3f F; e_dir : Vec3f F; e_tnear : F; e_tfar : F;
  e_Ng : Vec3f F; e_u : F; e_v : F; e_id0 : Z; e_id1 : Z;
  e_hit : bool
}.

(** Modelled from the spec: what the oracle answers when it finds a hit;
    section 6, "distance, normal, barycentric(u,v), triangleId,
    secondaryId". *)
Record OracleHit : Type := mkOracleHit {
  hit_distance : F; hit_normal : Vec3f F; hit_u : F; hit_v : F;
  hit_id0 : Z; hit_id1 : Z
}.

(** [struct MeshIntersection] *)
Record MeshIntersection : Type := mkMeshIntersection {
  isect_Ng : Vec3f F;
  isect_p : Vec3f F;
  isect_u : F;
  isect_v : F;
  isect_id0 : Z;
  isect_id1 : Z;
  isect_backSide : bool
}.

(** Modelled from the spec: [Distribution1D] of
    [sampling/Distribution1D.hpp], not among the sources; section 3, "one
    weight per triangle": the weights it is constructed from. *)
Record Distribution1D : Type := mkDistribution1D { weights : list F }.
End Data.

(** ** External collaborators

    Code the mesh calls and the sources do not contain: the affine transform
    of the primitive, the bounding box, the discrete distribution's [warp],
    the random stream, the sample warps, and the ray-tracing oracle. *)

Class Collaborators (F : Type) : Type := {
  Mat4f : Type;
  transformPoint : Mat4f -> Vec3f F -> Vec3f F;       (* [m*p] *)
  toNormalMatrix : Mat4f -> Mat4f;
  transformVector : Mat4f -> Vec3f F -> Vec3f F;
  Box3f : Type;
  boundsOf : Mat4f -> list (Vertex F) -> Box3f;        (* [computeBounds] *)
  warp : Distribution1D F -> F -> Z;                   (* the index [warp(u, idx)] stores *)
  SampleGenerator : Type;
  next1D : SampleGenerator -> F * SampleGenerator;
  next2D : SampleGenerator -> Vec2f F * SampleGenerator;
  uniformTriangle : Vec2f F -> Vec3f F -> Vec3f F -> Vec3f F -> Vec3f F;
  cosineHemisphere : Vec2f F -> Vec3f F;
  cosineHemispherePdf : Vec3f F -> F;
  frameToGlobal : Vec3f F -> Vec3f F -> Vec3f F;      (* [TangentFrame(n).toGlobal(d)] *)
  RTCGeometry : Type;
  RTCIntersector1 : Type;
  rtcBuild : list RTCTriangle -> list (Vec3f F) -> RTCGeometry;
  rtcQueryIntersector1 : RTCGeometry -> RTCIntersector1;
  rtcIntersect : RTCIntersector1 -> ERay F -> option (OracleHit F);
  rtcOccluded : RTCIntersector1 -> ERay F -> bool
}.

(** ** The mesh *)

Section Mesh.
Context {F : Type} {SF : Scalar F} {C : Collaborators F}.
Local Open Scope scalar_scope.
Local Open Scope vec_scope.
Local Open Scope outcome_scope.

(** The members of [TriangleMesh] the modelled functions read or write
    ([_transform] is the member of the base class [Primitive]); a null
    pointer is [None]. *)
Record TriangleMesh : Type := mkTriangleMesh {
  _transform : Mat4f;
  _dirty : bool;
  _smoothed : bool;
  _verts : list (Vertex F);
  _tfVerts : list (Vertex F);
  _tris : list TriangleI;
  _triSampler : option (Distribution1D F);
  _totalArea : F;
  _bounds : Box3f;
  _geom : option RTCGeometry;
  _intersector : option RTCIntersector1
}.

(** Modelled from the spec: [IntersectionTemporary], whose declaration is
    not among the sources; section 3, the per-hit record: the primitive that
    was hit ([primitive]) and that primitive's own data
    ([as<MeshIntersection>()]). *)
Record IntersectionTemporary : Type := mkIntersectionTemporary {
  data_primitive : option TriangleMesh;
  data_isect : MeshIntersection F
}.

(** Modelled from the spec: [IntersectionInfo], whose declaration is not
    among the sources; section 4.1, the shading data: geometric normal,
    shading normal, texture coordinate, besides the primitive and the hit
    point; these are the members [intersectionInfo] assigns. *)
Record IntersectionInfo : Type := mkIntersectionInfo {
  info_Ng : Vec3f F;
  info_Ns : Vec3f F;
  info_uv : Vec2f F;
  info_primitive : option TriangleMesh;
  info_p : Vec3f F
}.

(** Modelled from the spec: [LightSample], whose declaration is not among
    the sources; section 3, "origin point, sampled direction, distance, pdf
    ..., and a handle to random-number state". *)
Record LightSample : Type := mkLightSample {
  sampler : SampleGenerator;
  sample_p : Vec3f F;
  sample_d : Vec3f F;
  sample_dist : F;
  sample_pdf : F
}.

(** [TriangleMesh(verts, tris, bsdf, name, smoothed)].  The constructor
    leaves [_totalArea] and [_bounds] without an initializer: what they hold
    is whatever the storage held, here [garbage] and [box]. *)
Definition newTriangleMesh (transform : Mat4f) (garbage : F) (box : Box3f)
    (verts : list (Vertex F)) (tris : list TriangleI) (smoothed : bool) : TriangleMesh :=
  {| _transform := transform; _dirty := true; _smoothed := smoothed;
     _verts := verts; _tfVerts := []; _tris := tris;
     _triSampler := None; _totalArea := garbage; _bounds := box;
     _geom := None; _intersector := None |}.

(** [TriangleMesh()]: the same two members are left without an
    initializer. *)
Definition defaultTriangleMesh (transform : Mat4f) (garbage : F) (box : Box3f)
  : TriangleMesh :=
  {| _transform := transform; _dirty := false; _smoothed := false;
     _verts := []; _tfVerts := []; _tris := [];
     _triSampler := None; _totalArea := garbage; _bounds := box;
     _geom := None; _intersector := None |}.

(** The three world-space corners of a triangle:
    [_tfVerts[t.v0]], [_tfVerts[t.v1]], [_tfVerts[t.v2]]. *)
Definition corners (tfVerts : list (Vertex F)) (t : TriangleI)
  : outcome (Vertex F * Vertex F * Vertex F) :=
  a <- at_index tfVerts (v0 t) ;;
  b <- at_index tfVerts (v1 t) ;;
  c <- at_index tfVerts (v2 t) ;;
  Returns (a, b, c).

Definition normalAt (m : TriangleMesh) (triangle : Z) (u v : F) : outcome (Vec3f F) :=
  t <- at_index (_tris m) triangle ;;
  '(a, b, c) <- corners (_tfVerts m) t ;;
  let n0 := normal a in
  let n1 := normal b in
  let n2 := normal c in
  Returns (normalized ((fone - u - v) *^ n0 ^+ u *^ n1 ^+ v *^ n2)).

Definition uvAt (m : TriangleMesh) (triangle : Z) (u v : F) : outcome (Vec2f F) :=
  t <- at_index (_tris m) triangle ;;
  '(a, b, c) <- corners (_tfVerts m) t ;;
  let uv0 := uv a in
  let uv1 := uv b in
  let uv2 := uv c in
  Returns (vadd2 (vadd2 (smul2 (fone - u - v) uv0) (smul2 u uv1)) (smul2 v uv2)).

Definition zeroVec : Vec3f F := Vec3 fzero fzero fzero.

(** Modelled from the spec: [toERay] of [EmbreeUtil.hpp], not among the
    sources; section 6, the oracle takes "(origin, direction, valid distance
    interval)".  No hit is recorded in the ray yet; the members the oracle
    fills on a hit are never read before one, and start out as zeros and the
    id -1. *)
Definition toERay (ray : Ray F) : ERay F :=
  {| e_org := ray_pos ray; e_dir := ray_dir ray;
     e_tnear := nearT ray; e_tfar := farT ray;
     e_Ng := zeroVec; e_u := fzero; e_v := fzero;
     e_id0 := (-1)%Z; e_id1 := (-1)%Z; e_hit := false |}.

(** Modelled from the spec: [_intersector->intersect(eRay)]; section 6: the
    oracle reports "the nearest hit within that interval", written into the
    ray it was given; origin, direction and near bound are its inputs and
    stay. *)
Definition intersector_intersect (i : RTCIntersector1) (eRay : ERay F) : ERay F :=
  match rtcIntersect i eRay with
  | Some h =>
      {| e_org := e_org eRay; e_dir := e_dir eRay; e_tnear := e_tnear eRay;
         e_tfar := hit_distance h;
         e_Ng := hit_normal h; e_u := hit_u h; e_v := hit_v h;
         e_id0 := hit_id0 h; e_id1 := hit_id1 h; e_hit := true |}
  | None => eRay
  end.

(** [intersect(ray, data)]: the returned flag, and [ray] and [data] as the
    call leaves them. *)
Definition intersect (m : TriangleMesh) (ray : Ray F) (data : IntersectionTemporary)
  : outcome (bool * Ray F * IntersectionTemporary) :=
  match _intersector m with
  | None => Undefined
  | Some i =>
      let eRay := intersector_intersect i (toERay ray) in
      if e_hit eRay && (e_tfar eRay <? farT ray) then
        let ray' := setFarT ray (e_tfar eRay) in
        let Ng := e_Ng eRay in
        Returns (true, ray',
                 {| data_primitive := Some m;
                    data_isect :=
                      {| isect_Ng := Ng;
                         isect_p := e_org eRay ^+ e_dir eRay ^* e_tfar eRay;
                         isect_u := e_u eRay;
                         isect_v := e_v eRay;
                         isect_id0 := e_id0 eRay;
                         isect_id1 := e_id1 eRay;
                         isect_backSide := dot Ng (ray_dir ray') >? fzero |} |})
      else Returns (false, ray, data)
  end.

Definition occluded (m : TriangleMesh) (ray : Ray F) : outcome bool :=
  match _intersector m with
  | None => Undefined
  | Some i => Returns (rtcOccluded i (toERay ray))
  end.

(** [intersectionInfo(data, info)]: [info] as the call leaves it (every
    modelled member is assigned). *)
Definition intersectionInfo (m : TriangleMesh) (data : IntersectionTemporary)
  : outcome IntersectionInfo :=
  let isect := data_isect data in
  let Ng := vneg (normalized (isect_Ng isect)) in
  Ns <- (if _smoothed m
         then normalAt m (isect_id0 isect) (isect_u isect) (isect_v isect)
         else Returns Ng) ;;
  uv' <- uvAt m (isect_id0 isect) (isect_u isect) (isect_v isect) ;;
  Returns {| info_Ng := Ng; info_Ns := Ns; info_uv := uv';
             info_primitive := Some m; info_p := isect_p isect |}.

Definition hitBackside (data : IntersectionTemporary) : bool :=
  isect_backSide (data_isect data).

(** [tangentSpace(data, info, T, B)]: [None] is [return false] ([T] and [B]
    untouched), [Some (T, B)] is [return true] with what was stored. *)
Definition tangentSpace (m : TriangleMesh) (data : IntersectionTemporary)
  : outcome (option (Vec3f F * Vec3f F)) :=
  let isect := data_isect data in
  t <- at_index (_tris m) (isect_id0 isect) ;;
  '(a, b, c) <- corners (_tfVerts m) t ;;
  let p0 := pos a in
  let p1 := pos b in
  let p2 := pos c in
  let uv0 := uv a in
  let uv1 := uv b in
  let uv2 := uv c in
  let q1 := p1 ^- p0 in
  let q2 := p2 ^- p0 in
  let s1 := ux uv1 - ux uv0 in
  let t1 := uy uv1 - uy uv0 in
  let s2 := ux uv2 - ux uv0 in
  let t2 := uy uv2 - uy uv0 in
  let invDet := s1 * t2 - s2 * t1 in
  if flt_1em4 (fabs invDet) then Returns None
  else
    let det := fone / invDet in
    Returns (Some (det *^ (q1 ^* t2 ^- t1 *^ q2),
                   det *^ (q2 ^* s1 ^- s2 *^ q1))).

Definition bounds (m : TriangleMesh) : Box3f := _bounds m.

(** The loop [for i: _totalArea += triangleArea(p0, p1, p2)], entered with
    [_totalArea = acc]. *)
Fixpoint accumulateArea (tfVerts : list (Vertex F)) (tris : list TriangleI) (acc : F)
  : outcome F :=
  match tris with
  | [] => Returns acc
  | t :: rest =>
      '(a, b, c) <- corners tfVerts t ;;
      accumulateArea tfVerts rest (acc + triangleArea (pos a) (pos b) (pos c))
  end.

(** The triangle buffer handed to the oracle: triangle [i] carries [i] as
    its id and 0 as its secondary id. *)
Fixpoint triangleBuffer (tris : list TriangleI) (i : Z) : list RTCTriangle :=
  match tris with
  | [] => []
  | t :: rest => mkRTCTriangle (v0 t) (v1 t) (v2 t) i 0 :: triangleBuffer rest (i + 1)
  end.

Definition prepareForRender (m : TriangleMesh) : outcome TriangleMesh :=
  let box := boundsOf (_transform m) (_verts m) in
  let ts := triangleBuffer (_tris m) 0 in
  let normalTform := toNormalMatrix (_transform m) in
  let tfVerts :=
    map (fun v => mkVertex (transformPoint (_transform m) (pos v))
                           (transformVector normalTform (normal v))
                           (uv v)) (_verts m) in
  let vs := map (@pos F) tfVerts in
  totalArea <- accumulateArea tfVerts (_tris m) fzero ;;
  let geom := rtcBuild ts vs in
  Returns {| _transform := _transform m; _dirty := _dirty m; _smoothed := _smoothed m;
             _verts := _verts m; _tfVerts := tfVerts; _tris := _tris m;
             _triSampler := _triSampler m; _totalArea := totalArea; _bounds := box;
             _geom := Some geom; _intersector := Some (rtcQueryIntersector1 geom) |}.

Definition cleanupAfterRender (m : TriangleMesh) : TriangleMesh :=
  {| _transform := _transform m; _dirty := _dirty m; _smoothed := _smoothed m;
     _verts := _verts m; _tfVerts := []; _tris := _tris m;
     _triSampler := _triSampler m; _totalArea := _totalArea m; _bounds := _bounds m;
     _geom := None; _intersector := None |}.

(** [area()]: one path, which returns the member. *)
Definition area (m : TriangleMesh) : outcome F := Returns (_totalArea m).

Definition isSamplable (m : TriangleMesh) : bool :=
  match _triSampler m with Some _ => true | None => false end.

(** The loop of [makeSamplable], entered with [_totalArea = acc]: the areas
    stored, in triangle order, and [_totalArea] at the end. *)
Fixpoint collectAreas (tfVerts : list (Vertex F)) (tris : list TriangleI) (acc : F)
  : outcome (list F * F) :=
  match tris with
  | [] => Returns ([], acc)
  | t :: rest =>
      '(a, b, c) <- corners tfVerts t ;;
      let areas_i := triangleArea (pos a) (pos b) (pos c) in
      '(areas, total) <- collectAreas tfVerts rest (acc + areas_i) ;;
      Returns (areas_i :: areas, total)
  end.

Definition makeSamplable (m : TriangleMesh) : outcome TriangleMesh :=
  '(areas, totalArea) <- collectAreas (_tfVerts m) (_tris m) fzero ;;
  Returns {| _transform := _transform m; _dirty := _dirty m; _smoothed := _smoothed m;
             _verts := _verts m; _tfVerts := _tfVerts m; _tris := _tris m;
             _triSampler := Some (mkDistribution1D areas);
             _totalArea := totalArea; _bounds := _bounds m;
             _geom := _geom m; _intersector := _intersector m |}.

(** [inboundPdf(data, p, d)]: one path, which returns the quotient. *)
Definition inboundPdf (m : TriangleMesh) (data : IntersectionTemporary)
    (p d : Vec3f F) : outcome F :=
  let isect := data_isect data in
  Returns (lengthSq (p ^- isect_p isect)
           / (- dot d (normalized (isect_Ng isect)) * _totalArea m)).

(** [sampleInboundDirection(sample)]: the returned flag and [sample] as the
    call leaves it. *)
Definition sampleInboundDirection (m : TriangleMesh) (sample : LightSample)
  : outcome (bool * LightSample) :=
  let '(u, rng1) := next1D (sampler sample) in
  match _triSampler m with
  | None => Undefined
  | Some triSampler =>
      let idx := warp triSampler u in
      t <- at_index (_tris m) idx ;;
      '(a, b, c) <- corners (_tfVerts m) t ;;
      let p0 := pos a in
      let p1 := pos b in
      let p2 := pos c in
      let nrm := normalized (cross (p1 ^- p0) (p2 ^- p0)) in
      let '(xi, rng2) := next2D rng1 in
      let p := uniformTriangle xi p0 p1 p2 in
      let L := p ^- sample_p sample in
      let rSq := lengthSq L in
      let dist := fsqrt rSq in
      let d := L ^/ dist in
      let cosTheta := - dot nrm d in
      if cosTheta <=? fzero then
        Returns (false, {| sampler := rng2; sample_p := sample_p sample;
                           sample_d := d; sample_dist := dist;
                           sample_pdf := sample_pdf sample |})
      else
        Returns (true, {| sampler := rng2; sample_p := sample_p sample;
                          sample_d := d; sample_dist := dist;
                          sample_pdf := rSq / (cosTheta * _totalArea m) |})
  end.

Definition sampleOutboundDirection (m : TriangleMesh) (sample : LightSample)
  : outcome (bool * LightSample) :=
  let '(u, rng1) := next1D (sampler sample) in
  match _triSampler m with
  | None => Undefined
  | Some triSampler =>
      let idx := warp triSampler u in
      t <- at_index (_tris m) idx ;;
      '(a, b, c) <- corners (_tfVerts m) t ;;
      let p0 := pos a in
      let p1 := pos b in
      let p2 := pos c in
      let nrm := normalized (cross (p1 ^- p0) (p2 ^- p0)) in
      let '(xi, rng2) := next2D rng1 in
      let p := uniformTriangle xi p0 p1 p2 in
      let '(xi', rng3) := next2D rng2 in
      let d := cosineHemisphere xi' in
      Returns (true, {| sampler := rng3; sample_p := p;
                        sample_d := frameToGlobal nrm d;
                        sample_dist := sample_dist sample;
                        sample_pdf := cosineHemispherePdf d / _totalArea m |})
  end.

Definition isDelta (m : TriangleMesh) : bool := false.

(** [TriangleMesh(const TriangleMesh &o)]: the members it names are copied
    ([_dirty] is set), the others get their default: an empty
    [_tfVerts], a null [_triSampler], the null [_geom] and [_intersector] of
    their declarations, and no initializer for [_totalArea] (here
    [garbage]).  [Primitive(o)] copies the base-class part, [_transform]
    with it. *)
Definition copyTriangleMesh (garbage : F) (o : TriangleMesh) : TriangleMesh :=
  {| _transform := _transform o; _dirty := true; _smoothed := _smoothed o;
     _verts := _verts o; _tfVerts := []; _tris := _tris o;
     _triSampler := None; _totalArea := garbage; _bounds := _bounds o;
     _geom := None; _intersector := None |}.

(** [clone()]: [new TriangleMesh( *this )]. *)
Definition clone (garbage : F) (m : TriangleMesh) : TriangleMesh :=
  copyTriangleMesh garbage m.

(** [invertParametrization(uv, pos)]: the flag, and [pos] as the call
    leaves it. *)
Definition invertParametrization (m : TriangleMesh) (uv' : Vec2f F) (pos' : Vec3f F)
  : bool * Vec3f F := (false, pos').

Definition tris (m : TriangleMesh) : list TriangleI := _tris m.
Definition verts (m : TriangleMesh) : list (Vertex F) := _verts m.
Definition smoothed (m : TriangleMesh) : bool := _smoothed m.

Definition setSmoothed (m : TriangleMesh) (v : bool) : TriangleMesh :=
  {| _transform := _transform m; _dirty := _dirty m; _smoothed := v;
     _verts := _verts m; _tfVerts := _tfVerts m; _tris := _tris m;
     _triSampler := _triSampler m; _totalArea := _totalArea m; _bounds := _bounds m;
     _geom := _geom m; _intersector := _intersector m |}.

Definition isDirty (m : TriangleMesh) : bool := _dirty m.

Definition markDirty (m : TriangleMesh) : TriangleMesh :=
  {| _transform := _transform m; _dirty := true; _smoothed := _smoothed m;
     _verts := _verts m; _tfVerts := _tfVerts m; _tris := _tris m;
     _triSampler := _triSampler m; _totalArea := _totalArea m; _bounds := _bounds m;
     _geom := _geom m; _intersector := _intersector m |}.
End Mesh.

Arguments TriangleMesh F {C}.
Arguments IntersectionTemporary F {C}.
Arguments IntersectionInfo F {C}.
Arguments LightSample F {C}.

(** ** Vocabulary of the specification *)

Section MeshVocabulary.
Context {F : Type} {SF : Scalar F} {C : Collaborators F}.
Local Open Scope outcome_scope.

(** "Triangle indices < vertex count": the three indices of [t] are indices
    into an array of [n] vertices. *)
Definition validTriangle (n : nat) (t : TriangleI) : Prop :=
  (0 <= v0 t < Z.of_nat n)%Z /\ (0 <= v1 t < Z.of_nat n)%Z /\ (0 <= v2 t < Z.of_nat n)%Z.

(** The world-space vertex [prepareForRender] stores for a vertex. *)
Definition worldVertex (m : TriangleMesh F) (v : Vertex F) : Vertex F :=
  mkVertex (transformPoint (_transform m) (pos v))
           (transformVector (toNormalMatrix (_transform m)) (normal v))
           (uv v).

(** "Per-triangle world-space cross-product areas": the area of every
    triangle, in triangle order. *)
Fixpoint triangleAreas (tfVerts : list (Vertex F)) (tris : list TriangleI)
  : outcome (list F) :=
  match tris with
  | [] => Returns []
  | t :: rest =>
      '(a, b, c) <- corners tfVerts t ;;
      areas <- triangleAreas tfVerts rest ;;
      Returns (triangleArea (pos a) (pos b) (pos c) :: areas)
  end.

(** "Sum": the terms added one after the other, in order, onto zero. *)
Definition sumOf (l : list F) : F := fold_left fadd l fzero.

(** The record [intersect] fills for a hit [h] of [ray] on [m]. *)
Definition recordOf (m : TriangleMesh F) (ray : Ray F) (h : OracleHit F)
  : IntersectionTemporary F :=
  {| data_primitive := Some m;
     data_isect :=
       {| isect_Ng := hit_normal h;
          isect_p := vadd (ray_pos ray) (vmul (ray_dir ray) (hit_distance h));
          isect_u := hit_u h;
          isect_v := hit_v h;
          isect_id0 := hit_id0 h;
          isect_id1 := hit_id1 h;
          isect_backSide := fltb fzero (dot (hit_normal h) (ray_dir ray)) |} |}.

(** A sequence of [intersect] calls on one ray, one call per primitive of
    [ms] in order: the ray's far bound before the first call and after each
    call. *)
Fixpoint farBounds (ms : list (TriangleMesh F)) (ray : Ray F)
    (data : IntersectionTemporary F) : outcome (list F) :=
  match ms with
  | [] => Returns [farT ray]
  | m :: rest =>
      r <- intersect m ray data ;;
      fs <- farBounds rest (snd (fst r)) (snd r) ;;
      Returns (farT ray :: fs)
  end.

(** One call of a member function of the header that changes the mesh it is
    called on. *)
Inductive step : TriangleMesh F -> TriangleMesh F -> Prop :=
| step_prepareForRender (m m' : TriangleMesh F) :
    prepareForRender m = Returns m' -> step m m'
| step_makeSamplable (m m' : TriangleMesh F) :
    makeSamplable m = Returns m' -> step m m'
| step_cleanupAfterRender (m : TriangleMesh F) : step m (cleanupAfterRender m)
| step_setSmoothed (m : TriangleMesh F) (v : bool) : step m (setSmoothed m v)
| step_markDirty (m : TriangleMesh F) : step m (markDirty m).

(** The meshes obtained from a constructor by such calls. *)
Inductive reachable : TriangleMesh F -> Prop :=
| reach_new (transform : Mat4f) (garbage : F) (box : Box3f)
      (vs : list (Vertex F)) (ts : list TriangleI) (sm : bool) :
    reachable (newTriangleMesh transform garbage box vs ts sm)
| reach_default (transform : Mat4f) (garbage : F) (box : Box3f) :
    reachable (defaultTriangleMesh transform garbage box)
| reach_clone (garbage : F) (m : TriangleMesh F) :
    reachable m -> reachable (clone garbage m)
| reach_step (m m' : TriangleMesh F) : reachable m -> step m m' -> reachable m'.

(** What holds of a mesh at every point of its life.  Whenever it has an
    intersector it has a geometry, its transformed vertices are the current
    vertices under the current transform, and [area()] is the sum of the
    areas of its triangles.  Whenever it has a sampler, the weights of the
    sampler are the areas of its triangles under the current transform, in
    order, and they sum to [area()]: this survives [cleanupAfterRender] and
    any later [prepareForRender]. *)
Definition consistent (m : TriangleMesh F) : Prop :=
  (_geom m = None <-> _intersector m = None)
  /\ (_tfVerts m = [] \/ _tfVerts m = map (worldVertex m) (_verts m))
  /\ (_intersector m <> None ->
      _tfVerts m = map (worldVertex m) (_verts m)
      /\ exists areas, triangleAreas (_tfVerts m) (_tris m) = Returns areas
                       /\ _totalArea m = sumOf areas)
  /\ (forall d, _triSampler m = Some d ->
      triangleAreas (map (worldVertex m) (_verts m)) (_tris m) = Returns (weights d)
      /\ _totalArea m = sumOf (weights d)).

(** Each element is the one before it, or strictly below it. *)
Fixpoint nonIncreasing (l : list F) : Prop :=
  match l with
  | a :: (b :: _) as rest => (b = a \/ fltb b a = true) /\ nonIncreasing rest
  | _ => True
  end.
End MeshVocabulary.

Arguments step_prepareForRender {F SF C} m m' _.
Arguments step_makeSamplable {F SF C} m m' _.
Arguments reach_step {F SF C} m m' _ _.

(** ** The thin-sheet BSDF

    [ThinSheetBsdf.hpp] declares the class; the bodies of [sample], [eval]
    and [pdf] are in a file that is not among the sources. *)

Section ThinSheet.
Context {F : Type} {SF : Scalar F}.

(** Modelled from the spec: [SurfaceScatterEvent], whose declaration is not
    among the sources; section 4.2: the incident direction and the
    "externally supplied direction". *)
Record SurfaceScatterEvent : Type :=
  mkSurfaceScatterEvent { wi : Vec3f F; wo : Vec3f F }.

Record ThinSheetBsdf : Type := mkThinSheetBsdf {
  _ior : F;
  _thickness : Vec2f F -> F;       (* the texture [_thickness], as a lookup *)
  _sigmaA : Vec3f F
}.

Definition ior (b : ThinSheetBsdf) : F := _ior b.

(** Modelled from the spec: the body of [ThinSheetBsdf::eval] is missing;
    section 4.2: "all scattering mass of this model is concentrated on the
    single direction chosen by [sample] ... both return the zero value for
    every externally supplied direction". *)
Definition eval (b : ThinSheetBsdf) (event : SurfaceScatterEvent) : Vec3f F :=
  Vec3 fzero fzero fzero.

(** Modelled from the spec: the body of [ThinSheetBsdf::pdf] is missing;
    same sentence of section 4.2. *)
Definition pdf (b : ThinSheetBsdf) (event : SurfaceScatterEvent) : F := fzero.
End ThinSheet.

Arguments SurfaceScatterEvent F : clear implicits.
Arguments ThinSheetBsdf F : clear implicits.

(** ** A concrete set of collaborators

    Stand-ins for the external code, used to run the mesh on concrete scenes:
    a translation as the primitive's transform, a cumulative walk as [warp],
    a list of pre-drawn numbers as the random stream, the square-root warp of
    the unit square onto a triangle, and a Moeller-Trumbore oracle that
    reports, as Embree 1 does, the normal [cross(p0 - p1, p2 - p0)]. *)

Module Reference.
Section Reference.
Context {F : Type} {SF : Scalar F}.
Variable inv_pi : F.
Local Open Scope scalar_scope.
Local Open Scope vec_scope.

Fixpoint total (ws : list F) (acc : F) : F :=
  match ws with
  | [] => acc
  | w :: rest => total rest (acc + w)
  end.

Fixpoint walk (ws : list F) (target acc : F) (i : Z) : Z :=
  match ws with
  | [] => Z.max 0 (i - 1)
  | w :: rest => if target <? acc + w then i else walk rest target (acc + w) (i + 1)
  end.

Definition cdfWarp (d : Distribution1D F) (u : F) : Z :=
  walk (weights d) (u * total (weights d) fzero) fzero 0.

Definition listNext1D (s : list F) : F * list F :=
  match s with
  | [] => (fzero, [])
  | a :: rest => (a, rest)
  end.

Definition listNext2D (s : list F) : Vec2f F * list F :=
  let '(a, s1) := listNext1D s in
  let '(b, s2) := listNext1D s1 in
  (Vec2 a b, s2).

Definition sqrtWarpTriangle (xi : Vec2f F) (a b c : Vec3f F) : Vec3f F :=
  let uSqrt := fsqrt (ux xi) in
  let alpha := fone - uSqrt in
  let beta := (fone - uy xi) * uSqrt in
  a ^* alpha ^+ b ^* beta ^+ c ^* (fone - alpha - beta).

Definition diskHemisphere (xi : Vec2f F) : Vec3f F :=
  Vec3 (ux xi) (uy xi) (fsqrt (fone - ux xi * ux xi - uy xi * uy xi)).

Definition diskHemispherePdf (d : Vec3f F) : F := fabs (vz d) * inv_pi.

Definition frame (n d : Vec3f F) : Vec3f F :=
  let t0 := if fabs (vy n) <? fabs (vx n)
            then Vec3 fzero fone fzero else Vec3 fone fzero fzero in
  let bitangent := normalized (cross n t0) in
  let tangent := cross bitangent n in
  tangent ^* vx d ^+ bitangent ^* vy d ^+ n ^* vz d.

(** The oracle: geometry is the buffers it was built from. *)
Definition Geometry : Type := (list RTCTriangle * list (Vec3f F))%type.

Definition vertexAt (vs : list (Vec3f F)) (i : Z) : Vec3f F :=
  nth (Z.to_nat i) vs (Vec3 fzero fzero fzero).

(** One triangle against the ray: the hit, when the ray crosses the
    triangle at a distance inside [(tnear, tfar)]. *)
Definition hitTriangle (vs : list (Vec3f F)) (t : RTCTriangle) (r : ERay F)
  : option (OracleHit F) :=
  let p0 := vertexAt vs (rtc_v0 t) in
  let e1 := p0 ^- vertexAt vs (rtc_v1 t) in
  let e2 := vertexAt vs (rtc_v2 t) ^- p0 in
  let Ng := cross e1 e2 in
  let c := p0 ^- e_org r in
  let rr := cross (e_dir r) c in
  let det := dot Ng (e_dir r) in
  let sgn := if det <? fzero then - fone else fone in
  let absDet := fabs det in
  let U := dot rr e2 * sgn in
  let V := dot rr e1 * sgn in
  let W := absDet - U - V in
  let T := dot Ng c * sgn in
  if (fzero <? absDet) && (fzero <=? U) && (fzero <=? V) && (fzero <=? W)
     && (absDet * e_tnear r <? T) && (T <? absDet * e_tfar r)
  then Some {| hit_distance := T / absDet; hit_normal := Ng;
               hit_u := U / absDet; hit_v := V / absDet;
               hit_id0 := rtc_id0 t; hit_id1 := rtc_id1 t |}
  else None.

(** The nearest hit over all triangles. *)
Fixpoint nearest (vs : list (Vec3f F)) (ts : list RTCTriangle) (r : ERay F)
    (best : option (OracleHit F)) : option (OracleHit F) :=
  match ts with
  | [] => best
  | t :: rest =>
      match hitTriangle vs t r, best with
      | Some h, Some b =>
          nearest vs rest r (if hit_distance h <? hit_distance b then Some h else best)
      | Some h, None => nearest vs rest r (Some h)
      | None, _ => nearest vs rest r best
      end
  end.

Definition mtIntersect (g : Geometry) (r : ERay F) : option (OracleHit F) :=
  nearest (snd g) (fst g) r None.

Definition mtOccluded (g : Geometry) (r : ERay F) : bool :=
  match mtIntersect g r with Some _ => true | None => false end.

Definition collaborators : Collaborators F := {|
  Mat4f := Vec3f F;
  transformPoint := fun t p => p ^+ t;
  toNormalMatrix := fun t => Vec3 fzero fzero fzero;
  transformVector := fun _ v => v;
  Box3f := unit;
  boundsOf := fun _ _ => tt;
  warp := cdfWarp;
  SampleGenerator := list F;
  next1D := listNext1D;
  next2D := listNext2D;
  uniformTriangle := sqrtWarpTriangle;
  cosineHemisphere := diskHemisphere;
  cosineHemispherePdf := diskHemispherePdf;
  frameToGlobal := frame;
  RTCGeometry := Geometry;
  RTCIntersector1 := Geometry;
  rtcBuild := fun ts vs => (ts, vs);
  rtcQueryIntersector1 := fun g => g;
  rtcIntersect := mtIntersect;
  rtcOccluded := mtOccluded
|}.
End Reference.
End Reference.

(** ** Concrete scenes *)

(** Single precision: the unit square [0,1]x[0,1] in the plane [z = 0], cut
    into the triangles (0,1,2) and (1,3,2), every vertex carrying the normal
    (0,0,1) and its own (x, y) as texture coordinate; and a mesh whose only
    triangle has its three corners at the origin. *)
Module Scene32.
Import Binary32.

(** [m * 2^e], rounded to the format (exact for the numbers used here). *)
Definition f32 (m e : Z) : binary32 := binary_normalize prec emax m e false.

(** The [float] nearest to 1/pi. *)
Definition inv_pi : binary32 := S754_finite false 10680707 (-25).

Definition collaborators : Collaborators binary32 := Reference.collaborators inv_pi.
#[export] Existing Instance collaborators.

Definition vec (x y z : Z) : Vec3f binary32 := Vec3 (f32 x 0) (f32 y 0) (f32 z 0).

Definition vertex (x y : Z) : Vertex binary32 :=
  mkVertex (vec x y 0) (vec 0 0 1) (Vec2 (f32 x 0) (f32 y 0)).

(** As constructed: [_totalArea] holds whatever the storage held, here 7. *)
Definition square : TriangleMesh binary32 :=
  newTriangleMesh (vec 0 0 0) (f32 7 0) tt
    [vertex 0 0; vertex 1 0; vertex 0 1; vertex 1 1]
    [mkTriangleI 0 1 2; mkTriangleI 1 3 2] true.

Definition collapsed : TriangleMesh binary32 :=
  newTriangleMesh (vec 0 0 0) (f32 7 0) tt
    [vertex 0 0; vertex 0 0; vertex 0 0] [mkTriangleI 0 1 2] false.

(** After [prepareForRender] and [makeSamplable]. *)
Definition ready (m : TriangleMesh binary32) : outcome (TriangleMesh binary32) :=
  bind (prepareForRender m) makeSamplable.

(** The reference point (1/4, 1/4, 1) and a stream whose first number picks
    triangle 0 and whose next two land on (1/4, 1/4, 0), straight below. *)
Definition above : Vec3f binary32 := Vec3 (f32 1 (-2)) (f32 1 (-2)) (f32 1 0).
Definition down : Vec3f binary32 := Vec3 (f32 0 0) (f32 0 0) (SFopp (f32 1 0)).
Definition up : Vec3f binary32 := Vec3 (f32 0 0) (f32 0 0) (f32 1 0).
Definition sideways : Vec3f binary32 := Vec3 (f32 1 0) (f32 0 0) (f32 0 0).

Definition stream : list binary32 := [f32 1 (-2); f32 1 (-2); f32 1 (-1)].

Definition sample0 : LightSample binary32 :=
  {| sampler := stream; sample_p := above; sample_d := vec 0 0 0;
     sample_dist := f32 0 0; sample_pdf := f32 0 0 |}.

(** The ray from that point straight down, valid on [0, 100]. *)
Definition ray0 : Ray binary32 :=
  {| ray_pos := above; ray_dir := down; nearT := f32 0 0; farT := f32 100 0 |}.

Definition noHit : IntersectionTemporary binary32 :=
  {| data_primitive := None;
     data_isect := mkMeshIntersection (vec 0 0 0) (vec 0 0 0) (f32 0 0) (f32 0 0) 0 0 false |}.

(** What [intersect] leaves in the record. *)
Definition hitOf (m : TriangleMesh binary32) (ray : Ray binary32)
  : outcome (IntersectionTemporary binary32) :=
  bind (intersect m ray noHit) (fun r => Returns (snd r)).

Definition orElse {A : Type} (x : outcome A) (d : A) : A :=
  match x with Returns a => a | _ => d end.

(** The two meshes after [prepareForRender] and [makeSamplable], and the
    record of the hit of [ray0] on the square, written out. *)
Definition squareReady : TriangleMesh binary32 :=
  Eval vm_compute in orElse (ready square) square.

Definition collapsedReady : TriangleMesh binary32 :=
  Eval vm_compute in orElse (ready collapsed) collapsed.

Definition hit0 : IntersectionTemporary binary32 :=
  Eval vm_compute in orElse (hitOf squareReady ray0) noHit.

(** A record of the same hit that stores the normal (0,0,1) instead. *)
Definition hitUp : IntersectionTemporary binary32 :=
  {| data_primitive := Some squareReady;
     data_isect :=
       mkMeshIntersection up (Vec3 (f32 1 (-2)) (f32 1 (-2)) (f32 0 0))
                          (f32 1 (-2)) (f32 1 (-2)) 0 0 false |}.

(** The float nearest to 1e-4. *)
Definition f1em4 : binary32 := Eval vm_compute in SFdiv prec emax (f32 1 0) (f32 10000 0).

(** The square after [prepareForRender] alone. *)
Definition squarePrepared : TriangleMesh binary32 :=
  Eval vm_compute in orElse (prepareForRender square) square.

(** A default-constructed mesh: no vertices, no triangles. *)
Definition empty : TriangleMesh binary32 :=
  defaultTriangleMesh (vec 0 0 0) (f32 7 0) tt.

(** One triangle with the corners (0,0,0), (1,0,0), (0,1,0), the given
    texture coordinates and the given vertex normal at every corner, after
    [prepareForRender] and [makeSamplable]. *)
Definition corner (x y : Z) (n : Vec3f binary32) (u v : Z) : Vertex binary32 :=
  mkVertex (vec x y 0) n (Vec2 (f32 u 0) (f32 v 0)).

Definition triangleWith (n : Vec3f binary32) (u1 v1 u2 v2 : Z) : TriangleMesh binary32 :=
  newTriangleMesh (vec 0 0 0) (f32 7 0) tt
    [corner 0 0 n 0 0; corner 1 0 n u1 v1; corner 0 1 n u2 v2]
    [mkTriangleI 0 1 2] true.

(** Texture coordinates (0,0), (4097,4098), (4096,4097): the determinant of
    the differences is 4097*4097 - 4096*4098 = 1. *)
Definition cancelling : TriangleMesh binary32 :=
  Eval vm_compute in
    orElse (ready (triangleWith (vec 0 0 1) 4097 4098 4096 4097))
           (triangleWith (vec 0 0 1) 4097 4098 4096 4097).

(** Texture coordinates (0,0), (4097,8396801), (2,4099): the determinant of
    the differences is 4097*4099 - 2*8396801 = 1. *)
Definition doubling : TriangleMesh binary32 :=
  Eval vm_compute in
    orElse (ready (triangleWith (vec 0 0 1) 4097 8396801 2 4099))
           (triangleWith (vec 0 0 1) 4097 8396801 2 4099).

(** Vertex normals (0,0,2), as a uniform scaling of the primitive leaves
    them in the transformed vertices. *)
Definition stretched : TriangleMesh binary32 :=
  Eval vm_compute in
    orElse (ready (triangleWith (vec 0 0 2) 1 0 0 1))
           (triangleWith (vec 0 0 2) 1 0 0 1).

(** The request of [sample0] made from the very point it draws,
    (1/4, 1/4, 0), on the square. *)
Definition onTheLight : LightSample binary32 :=
  {| sampler := stream; sample_p := Vec3 (f32 1 (-2)) (f32 1 (-2)) (f32 0 0);
     sample_d := vec 0 0 0; sample_dist := f32 0 0; sample_pdf := f32 0 0 |}.

End Scene32.

(** Exact arithmetic: the same square, already prepared (the primitive's
    transform being the zero translation), with texture coordinates (x, y). *)
Module SceneR.
Local Open Scope R_scope.

Definition collaborators : Collaborators R := Reference.collaborators (/ PI).
#[export] Existing Instance collaborators.

Definition vertex (x y : R) : Vertex R :=
  mkVertex (Vec3 x y 0) (Vec3 0 0 1) (Vec2 x y).

Definition corners4 : list (Vertex R) :=
  [vertex 0 0; vertex 1 0; vertex 0 1; vertex 1 1].

Definition square : TriangleMesh R :=
  {| _transform := Vec3 0 0 0; _dirty := true; _smoothed := true;
     _verts := corners4; _tfVerts := corners4;
     _tris := [mkTriangleI 0 1 2; mkTriangleI 1 3 2];
     _triSampler := None; _totalArea := 1; _bounds := tt;
     _geom := None; _intersector := None |}.

Definition hit0 : IntersectionTemporary R :=
  {| data_primitive := None;
     data_isect :=
       mkMeshIntersection (Vec3 0 0 (-1)) (Vec3 (1/4) (1/4) 0) (1/4) (1/4) 0 0 true |}.

(** The square with a sampler over its two triangles, a sample request
    from the point (1/4, 1/4, 1) on a stream that picks triangle 0, and a
    record of a hit at the point that request draws, with the normal
    [cross(p0 - p1, p2 - p0)] of triangle 0. *)
Definition squareSamplable : TriangleMesh R :=
  {| _transform := Vec3 0 0 0; _dirty := true; _smoothed := true;
     _verts := corners4; _tfVerts := corners4;
     _tris := [mkTriangleI 0 1 2; mkTriangleI 1 3 2];
     _triSampler := Some (mkDistribution1D [1/2; 1/2]);
     _totalArea := 1; _bounds := tt;
     _geom := None; _intersector := None |}.

Definition sample0 : LightSample R :=
  {| sampler := [1/4; 1/4; 1/2]; sample_p := Vec3 (1/4) (1/4) 1;
     sample_d := Vec3 0 0 0; sample_dist := 0; sample_pdf := 0 |}.

Definition drawn : Vec3f R :=
  Reference.sqrtWarpTriangle (Vec2 (1/4) (1/2))
    (pos (vertex 0 0)) (pos (vertex 1 0)) (pos (vertex 0 1)).

Definition hitDrawn : IntersectionTemporary R :=
  {| data_primitive := None;
     data_isect :=
       mkMeshIntersection
         (cross (vsub (pos (vertex 0 0)) (pos (vertex 1 0)))
                (vsub (pos (vertex 0 1)) (pos (vertex 0 0))))
         drawn (1/4) (1/4) 0 0 true |}.

(** The first triangle of the square alone, prepared and samplable, with
    the geometry the reference oracle was built from; the ray from
    (1/4, 1/4, 1) straight down, valid on [0, 100]; and a record that holds
    no hit yet. *)
Definition geometry : Reference.Geometry (F := R) :=
  (triangleBuffer [mkTriangleI 0 1 2] 0, map (@pos R) corners4).

Definition triangleTraced : TriangleMesh R :=
  {| _transform := Vec3 0 0 0; _dirty := true; _smoothed := true;
     _verts := corners4; _tfVerts := corners4;
     _tris := [mkTriangleI 0 1 2];
     _triSampler := Some (mkDistribution1D [1/2]);
     _totalArea := 1/2; _bounds := tt;
     _geom := Some geometry; _intersector := Some geometry |}.

Definition ray0 : Ray R :=
  {| ray_pos := Vec3 (1/4) (1/4) 1; ray_dir := Vec3 0 0 (-1);
     nearT := 0; farT := 100 |}.

Definition noHit : IntersectionTemporary R :=
  {| data_primitive := None;
     data_isect := mkMeshIntersection (Vec3 0 0 0) (Vec3 0 0 0) 0 0 0 0 false |}.

End SceneR.

(** * Properties *)

Unset Implicit Arguments.

Section MeshProperties.
Context {F : Type} {SF : Scalar F} {C : Collaborators F}.
Local Open Scope scalar_scope.
Local Open Scope vec_scope.
Local Open Scope outcome_scope.

Lemma bind_Returns (A B : Type) (a : A) (k : A -> outcome B) :
  bind (Returns a) k = k a.
Proof. reflexivity. Qed.

(** The sample [sampleInboundDirection] leaves and the flag it returns,
    once the triangle it draws and the corners of that triangle are found. *)
Lemma sampleInboundDirection_run
    (m : TriangleMesh F) (sample : LightSample F)
    (triSampler : Distribution1D F) (t : TriangleI) (a b c : Vertex F) :
  _triSampler m = Some triSampler ->
  at_index (_tris m) (warp triSampler (fst (next1D (sampler sample)))) = Returns t ->
  corners (_tfVerts m) t = Returns (a, b, c) ->
  let nrm := normalized (cross (pos b ^- pos a) (pos c ^- pos a)) in
  let rng1 := snd (next1D (sampler sample)) in
  let p := uniformTriangle (fst (next2D rng1)) (pos a) (pos b) (pos c) in
  let rSq := lengthSq (p ^- sample_p sample) in
  let d := (p ^- sample_p sample) ^/ fsqrt rSq in
  let cosTheta := - dot nrm d in
  sampleInboundDirection m sample =
    Returns (negb (cosTheta <=? fzero),
             {| sampler := snd (next2D rng1);
                sample_p := sample_p sample;
                sample_d := d;
                sample_dist := fsqrt rSq;
                sample_pdf := if cosTheta <=? fzero then sample_pdf sample
                              else rSq / (cosTheta * _totalArea m) |}).
Proof.
  intros Hs Ht Hc. cbv zeta.
  unfold sampleInboundDirection.
  destruct (next1D (sampler sample)) as [u r1]. cbn [fst snd] in *.
  rewrite Hs, Ht, bind_Returns, Hc, bind_Returns.
  destruct (next2D r1) as [xi r2]. cbn [fst snd].
  destruct_guard; reflexivity.
Qed.

(** C1. Once a triangle and a point on it are drawn, [sampleInboundDirection]
    returns [false] exactly when [cosTheta = -(normal . d)] is [<= 0]; when
    it returns [true] the pdf it stores is [rSq / (cosTheta * _totalArea)],
    [rSq] being the squared distance from the reference point to the drawn
    point; when it returns [false] the pdf is left as it was. *)
Theorem sampleInboundDirection_cosine_guard
    (m : TriangleMesh F) (sample : LightSample F)
    (triSampler : Distribution1D F) (t : TriangleI) (a b c : Vertex F) :
  _triSampler m = Some triSampler ->
  at_index (_tris m) (warp triSampler (fst (next1D (sampler sample)))) = Returns t ->
  corners (_tfVerts m) t = Returns (a, b, c) ->
  let nrm := normalized (cross (pos b ^- pos a) (pos c ^- pos a)) in
  let p := uniformTriangle (fst (next2D (snd (next1D (sampler sample)))))
                           (pos a) (pos b) (pos c) in
  let rSq := lengthSq (p ^- sample_p sample) in
  let d := (p ^- sample_p sample) ^/ fsqrt rSq in
  let cosTheta := - dot nrm d in
  exists sample',
    sampleInboundDirection m sample = Returns (negb (cosTheta <=? fzero), sample')
    /\ sample_p sample' = sample_p sample
    /\ sample_d sample' = d
    /\ sample_dist sample' = fsqrt rSq
    /\ sample_pdf sample' =
         if cosTheta <=? fzero then sample_pdf sample
         else rSq / (cosTheta * _totalArea m).
Proof.
  intros Hs Ht Hc nrm p rSq d cosTheta.
  eexists. split; [exact (sampleInboundDirection_run m sample triSampler t a b c Hs Ht Hc)|].
  repeat split.
Qed.

Lemma intersect_run
    (m : TriangleMesh F) (i : RTCIntersector1) (ray : Ray F)
    (data : IntersectionTemporary F) :
  _intersector m = Some i ->
  intersect m ray data =
    Returns
      match rtcIntersect i (toERay ray) with
      | Some h =>
          if hit_distance h <? farT ray
          then (true, setFarT ray (hit_distance h), recordOf m ray h)
          else (false, ray, data)
      | None => (false, ray, data)
      end.
Proof.
  intros Hi. unfold intersect, intersector_intersect. rewrite Hi.
  destruct (rtcIntersect i (toERay ray)) as [h|]; simpl.
  - destruct (hit_distance h <? farT ray); reflexivity.
  - reflexivity.
Qed.

(** C3. [intersect] returns [true] exactly when the oracle reports a hit
    whose distance is strictly below the ray's far bound.  It then stores
    that distance as the new far bound and fills the record: the oracle's
    normal, the point [origin + direction * distance], the oracle's
    barycentric coordinates and ids, and the flag [dot(Ng, dir) > 0].
    Otherwise ray and record are returned as they were. *)
Theorem intersect_closer_hit
    (m : TriangleMesh F) (i : RTCIntersector1) (ray : Ray F)
    (data : IntersectionTemporary F) :
  _intersector m = Some i ->
  intersect m ray data =
    Returns
      match rtcIntersect i (toERay ray) with
      | Some h =>
          if hit_distance h <? farT ray then
            (true,
             {| ray_pos := ray_pos ray; ray_dir := ray_dir ray;
                nearT := nearT ray; farT := hit_distance h |},
             {| data_primitive := Some m;
                data_isect :=
                  {| isect_Ng := hit_normal h;
                     isect_p := ray_pos ray ^+ ray_dir ray ^* hit_distance h;
                     isect_u := hit_u h;
                     isect_v := hit_v h;
                     isect_id0 := hit_id0 h;
                     isect_id1 := hit_id1 h;
                     isect_backSide := dot (hit_normal h) (ray_dir ray) >? fzero |} |})
          else (false, ray, data)
      | None => (false, ray, data)
      end.
Proof. exact (intersect_run m i ray data). Qed.

(** *** Total area *)

Lemma at_index_valid (A : Type) (l : list A) (i : Z) :
  (0 <= i < Z.of_nat (List.length l))%Z -> exists a, at_index l i = Returns a.
Proof.
  intros [Hlo Hhi]. unfold at_index.
  destruct (i <? 0)%Z eqn:E; [apply Z.ltb_lt in E; lia|].
  destruct (nth_error l (Z.to_nat i)) as [a|] eqn:En.
  - exists a; reflexivity.
  - apply nth_error_None in En. lia.
Qed.

Lemma corners_valid (tfVerts : list (Vertex F)) (t : TriangleI) :
  validTriangle (List.length tfVerts) t ->
  exists a b c, corners tfVerts t = Returns (a, b, c).
Proof.
  intros (H0 & H1 & H2). unfold corners.
  destruct (at_index_valid _ tfVerts _ H0) as [a ->].
  destruct (at_index_valid _ tfVerts _ H1) as [b ->].
  destruct (at_index_valid _ tfVerts _ H2) as [c ->].
  exists a, b, c; reflexivity.
Qed.

Lemma triangleAreas_defined (tfVerts : list (Vertex F)) (tris : list TriangleI) :
  Forall (validTriangle (List.length tfVerts)) tris ->
  exists areas, triangleAreas tfVerts tris = Returns areas.
Proof.
  induction 1 as [|t rest Ht _ IH]; simpl.
  - exists []; reflexivity.
  - destruct (corners_valid _ _ Ht) as (a & b & c & ->).
    destruct IH as [areas ->]. simpl. eexists; reflexivity.
Qed.

Lemma accumulateArea_sum (tfVerts : list (Vertex F)) (tris : list TriangleI) :
  forall (areas : list F) (acc : F),
    triangleAreas tfVerts tris = Returns areas ->
    accumulateArea tfVerts tris acc = Returns (fold_left fadd areas acc).
Proof.
  induction tris as [|t rest IH]; simpl; intros areas acc H.
  - injection H as <-. reflexivity.
  - destruct (corners tfVerts t) as [[[a b] c]| |]; simpl in *; try discriminate.
    destruct (triangleAreas tfVerts rest) as [rs| |]; simpl in *; try discriminate.
    injection H as <-. simpl. apply IH. reflexivity.
Qed.

Lemma collectAreas_sum (tfVerts : list (Vertex F)) (tris : list TriangleI) :
  forall (areas : list F) (acc : F),
    triangleAreas tfVerts tris = Returns areas ->
    collectAreas tfVerts tris acc = Returns (areas, fold_left fadd areas acc).
Proof.
  induction tris as [|t rest IH]; simpl; intros areas acc H.
  - injection H as <-. reflexivity.
  - destruct (corners tfVerts t) as [[[a b] c]| |]; simpl in *; try discriminate.
    destruct (triangleAreas tfVerts rest) as [rs| |]; simpl in *; try discriminate.
    injection H as <-. rewrite (IH rs _ eq_refl). reflexivity.
Qed.

(** C6. With every triangle index below the vertex count,
    [prepareForRender] returns, and leaves in [_totalArea] the sum of the
    areas of all triangles, taken on the transformed vertices it has just
    stored.  With every index below the size of the transformed-vertex cache,
    [makeSamplable] returns, leaves in [_totalArea] the same sum, and hands
    the distribution exactly those areas as weights, so that the weights sum
    to [_totalArea]. *)
Theorem totalArea_is_sum_of_triangle_areas (m : TriangleMesh F) :
  (Forall (validTriangle (List.length (_verts m))) (_tris m) ->
   exists m' areas,
     prepareForRender m = Returns m'
     /\ _tfVerts m' = map (worldVertex m) (_verts m)
     /\ _tris m' = _tris m
     /\ triangleAreas (_tfVerts m') (_tris m') = Returns areas
     /\ _totalArea m' = sumOf areas)
  /\
  (Forall (validTriangle (List.length (_tfVerts m))) (_tris m) ->
   exists m' areas,
     makeSamplable m = Returns m'
     /\ _tfVerts m' = _tfVerts m
     /\ _tris m' = _tris m
     /\ triangleAreas (_tfVerts m') (_tris m') = Returns areas
     /\ _totalArea m' = sumOf areas
     /\ _triSampler m' = Some (mkDistribution1D areas)
     /\ (forall d, _triSampler m' = Some d -> sumOf (weights d) = _totalArea m')).
Proof.
  split; intros Hv.
  - assert (Hlen : List.length (map (worldVertex m) (_verts m)) = List.length (_verts m))
      by apply length_map.
    rewrite <- Hlen in Hv.
    destruct (triangleAreas_defined _ _ Hv) as [areas Ha].
    unfold prepareForRender.
    change (map (fun v => mkVertex (transformPoint (_transform m) (pos v))
                            (transformVector (toNormalMatrix (_transform m)) (normal v))
                            (uv v)) (_verts m))
      with (map (worldVertex m) (_verts m)).
    rewrite (accumulateArea_sum _ _ _ fzero Ha). simpl.
    eexists; exists areas. repeat split; try reflexivity. exact Ha.
  - destruct (triangleAreas_defined _ _ Hv) as [areas Ha].
    unfold makeSamplable. rewrite (collectAreas_sum _ _ _ fzero Ha). simpl.
    eexists; exists areas. repeat split; try reflexivity.
    + exact Ha.
    + simpl. intros d Hd. injection Hd as <-. reflexivity.
Qed.


(** *** Shading data and tangent frame, for every arithmetic *)

(** What [intersectionInfo] stores, once the hit triangle and its corners
    are found: the oracle's normal renormalized and negated; the renormalized
    interpolation of the corner normals when smoothing is on, the geometric
    normal otherwise; the interpolation of the corner texture coordinates;
    the weights are [(1 - u - v, u, v)]. *)
Lemma intersectionInfo_formula
    (m : TriangleMesh F) (data : IntersectionTemporary F)
    (t : TriangleI) (a b c : Vertex F) :
  at_index (_tris m) (isect_id0 (data_isect data)) = Returns t ->
  corners (_tfVerts m) t = Returns (a, b, c) ->
  let u := isect_u (data_isect data) in
  let v := isect_v (data_isect data) in
  let w := fone - u - v in
  let Ng := vneg (normalized (isect_Ng (data_isect data))) in
  intersectionInfo m data =
    Returns {| info_Ng := Ng;
               info_Ns := if _smoothed m
                          then normalized (w *^ normal a ^+ u *^ normal b ^+ v *^ normal c)
                          else Ng;
               info_uv := vadd2 (vadd2 (smul2 w (uv a)) (smul2 u (uv b))) (smul2 v (uv c));
               info_primitive := Some m;
               info_p := isect_p (data_isect data) |}.
Proof.
  intros Ht Hc u v w Ng.
  unfold intersectionInfo, normalAt, uvAt.
  rewrite Ht. simpl. rewrite Hc. simpl.
  destruct (_smoothed m); reflexivity.
Qed.

(** What [tangentSpace] returns, once the hit triangle and its corners are
    found. *)
Lemma tangentSpace_formula
    (m : TriangleMesh F) (data : IntersectionTemporary F)
    (t : TriangleI) (a b c : Vertex F) :
  at_index (_tris m) (isect_id0 (data_isect data)) = Returns t ->
  corners (_tfVerts m) t = Returns (a, b, c) ->
  let q1 := pos b ^- pos a in
  let q2 := pos c ^- pos a in
  let s1 := ux (uv b) - ux (uv a) in
  let t1 := uy (uv b) - uy (uv a) in
  let s2 := ux (uv c) - ux (uv a) in
  let t2 := uy (uv c) - uy (uv a) in
  let invDet := s1 * t2 - s2 * t1 in
  tangentSpace m data =
    Returns (if flt_1em4 (fabs invDet) then None
             else Some ((fone / invDet) *^ (q1 ^* t2 ^- t1 *^ q2),
                        (fone / invDet) *^ (q2 ^* s1 ^- s2 *^ q1))).
Proof.
  intros Ht Hc q1 q2 s1 t1 s2 t2 invDet.
  unfold tangentSpace. rewrite Ht. simpl. rewrite Hc. simpl.
  fold q1 q2 s1 t1 s2 t2. fold invDet.
  destruct (flt_1em4 (fabs invDet)); reflexivity.
Qed.

(** *** The pdf operations *)

(** C5, as amended.  [sampleInboundDirection] rejects when [cosTheta <= 0]
    and only looks at [cosTheta]: for any other [cosTheta] it accepts and
    stores the quotient, whatever [_totalArea] is.  [inboundPdf] rejects
    nothing: it returns the quotient it computes. *)
Theorem pdf_operations_only_guard_the_cosine
    (m : TriangleMesh F) (sample : LightSample F)
    (triSampler : Distribution1D F) (t : TriangleI) (a b c : Vertex F) :
  _triSampler m = Some triSampler ->
  at_index (_tris m) (warp triSampler (fst (next1D (sampler sample)))) = Returns t ->
  corners (_tfVerts m) t = Returns (a, b, c) ->
  let nrm := normalized (cross (pos b ^- pos a) (pos c ^- pos a)) in
  let p := uniformTriangle (fst (next2D (snd (next1D (sampler sample)))))
                           (pos a) (pos b) (pos c) in
  let rSq := lengthSq (p ^- sample_p sample) in
  let cosTheta := - dot nrm ((p ^- sample_p sample) ^/ fsqrt rSq) in
  ((cosTheta <=? fzero) = true ->
     exists sample', sampleInboundDirection m sample = Returns (false, sample'))
  /\ ((cosTheta <=? fzero) = false ->
     exists sample', sampleInboundDirection m sample = Returns (true, sample')
                     /\ sample_pdf sample' = rSq / (cosTheta * _totalArea m))
  /\ (forall (data : IntersectionTemporary F) (q d : Vec3f F),
       inboundPdf m data q d =
         Returns (lengthSq (q ^- isect_p (data_isect data))
                  / (- dot d (normalized (isect_Ng (data_isect data))) * _totalArea m))).
Proof.
  intros Hs Ht Hc nrm p rSq cosTheta.
  pose proof (sampleInboundDirection_run m sample triSampler t a b c Hs Ht Hc) as Hrun.
  cbv zeta in Hrun. fold nrm p rSq cosTheta in Hrun.
  repeat split.
  - intros Hle. rewrite Hle in Hrun. eexists. exact Hrun.
  - intros Hle. rewrite Hle in Hrun. eexists. split; [exact Hrun | reflexivity].
Qed.

(** *** Far bound *)

Lemma intersect_far_bound
    (m : TriangleMesh F) (ray ray' : Ray F) (data data' : IntersectionTemporary F)
    (hit : bool) :
  intersect m ray data = Returns (hit, ray', data') ->
  (hit = false /\ ray' = ray /\ data' = data)
  \/ (hit = true /\ ray' = setFarT ray (farT ray') /\ (farT ray' <? farT ray) = true
       /\ exists i h, _intersector m = Some i
                      /\ rtcIntersect i (toERay ray) = Some h
                      /\ farT ray' = hit_distance h).
Proof.
  intros H. destruct (_intersector m) as [i|] eqn:Hi.
  - rewrite (intersect_run m i ray data Hi) in H.
    destruct (rtcIntersect i (toERay ray)) as [h|] eqn:Hh.
    + destruct (hit_distance h <? farT ray) eqn:Hlt; injection H as <- <- <-.
      * right. repeat split; try assumption. exists i, h. repeat split; assumption.
      * left. repeat split.
    + injection H as <- <- <-. left. repeat split.
  - unfold intersect in H. rewrite Hi in H. discriminate.
Qed.

Lemma farBounds_head (ms : list (TriangleMesh F)) (ray : Ray F)
    (data : IntersectionTemporary F) (fs : list F) :
  farBounds ms ray data = Returns fs -> exists rest, fs = farT ray :: rest.
Proof.
  destruct ms as [|m ms]; simpl; intros H.
  - injection H as <-. exists []; reflexivity.
  - destruct (intersect m ray data) as [r| |]; simpl in H; try discriminate.
    destruct (farBounds ms (snd (fst r)) (snd r)) as [gs| |]; simpl in H; try discriminate.
    injection H as <-. exists gs; reflexivity.
Qed.

Lemma farBounds_nonIncreasing (ms : list (TriangleMesh F)) :
  forall (ray : Ray F) (data : IntersectionTemporary F) (fs : list F),
    farBounds ms ray data = Returns fs -> nonIncreasing fs.
Proof.
  induction ms as [|m ms IH]; simpl; intros ray data fs H.
  - injection H as <-. exact I.
  - destruct (intersect m ray data) as [[[hit ray'] data']| |] eqn:Hrun;
      simpl in H; try discriminate.
    destruct (farBounds ms ray' data') as [gs| |] eqn:Hrest; simpl in H; try discriminate.
    injection H as <-.
    destruct (farBounds_head ms ray' data' gs Hrest) as [rest ->].
    split; [| exact (IH ray' data' _ Hrest)].
    destruct (intersect_far_bound m ray ray' data data' hit Hrun)
      as [(_ & -> & _) | (_ & _ & Hlt & _)]; [left; reflexivity | right; exact Hlt].
Qed.

Lemma farBounds_defined (ms : list (TriangleMesh F)) :
  Forall (fun m => _intersector m <> None) ms ->
  forall (ray : Ray F) (data : IntersectionTemporary F),
    exists fs, farBounds ms ray data = Returns fs.
Proof.
  induction 1 as [|m ms Hm _ IH]; intros ray data; simpl.
  - eexists; reflexivity.
  - destruct (_intersector m) as [i|] eqn:Hi; [| congruence].
    rewrite (intersect_run m i ray data Hi). simpl.
    match goal with |- context [farBounds ms ?r ?d] => destruct (IH r d) as [fs ->] end.
    simpl. eexists; reflexivity.
Qed.

(** A reported hit lies strictly below the far bound the ray came with,
    and not below its near bound as long as the oracle's answer to the query
    is not. *)
Lemma intersect_hit_in_interval
    (m : TriangleMesh F) (i : RTCIntersector1) (ray ray' : Ray F)
    (data data' : IntersectionTemporary F) :
  _intersector m = Some i ->
  (forall h, rtcIntersect i (toERay ray) = Some h ->
             (nearT ray <=? hit_distance h) = true) ->
  intersect m ray data = Returns (true, ray', data') ->
  (nearT ray <=? farT ray') = true /\ (farT ray' <? farT ray) = true
  /\ nearT ray' = nearT ray.
Proof.
  intros Hi Hnear Hrun.
  destruct (intersect_far_bound m ray ray' data data' true Hrun)
    as [(Hf & _) | (_ & Hray & Hlt & i' & h & Hi' & Hh & Hd)]; [discriminate|].
  rewrite Hi in Hi'. injection Hi' as <-.
  repeat split.
  - rewrite Hd. apply Hnear. exact Hh.
  - exact Hlt.
  - rewrite Hray. reflexivity.
Qed.

Lemma farBounds_length (ms : list (TriangleMesh F)) :
  forall (ray : Ray F) (data : IntersectionTemporary F) (fs : list F),
    farBounds ms ray data = Returns fs -> List.length fs = S (List.length ms).
Proof.
  induction ms as [|m ms IH]; simpl; intros ray data fs H.
  - injection H as <-. reflexivity.
  - destruct (intersect m ray data) as [r| |]; simpl in H; try discriminate.
    destruct (farBounds ms (snd (fst r)) (snd r)) as [gs| |] eqn:Hrest;
      simpl in H; try discriminate.
    injection H as <-. simpl. f_equal. exact (IH _ _ _ Hrest).
Qed.

(** *** Lifecycle *)

Lemma at_index_never_aborts (A : Type) (l : list A) (i : Z) : at_index l i <> Aborts.
Proof.
  unfold at_index. destruct (i <? 0)%Z; [discriminate|].
  destruct (nth_error l (Z.to_nat i)); discriminate.
Qed.

Lemma corners_never_aborts (tfVerts : list (Vertex F)) (t : TriangleI) :
  corners tfVerts t <> Aborts.
Proof.
  unfold corners.
  destruct (at_index tfVerts (v0 t)) eqn:E0; simpl; try discriminate;
    [| exact (fun _ => at_index_never_aborts _ _ _ E0)].
  destruct (at_index tfVerts (v1 t)) eqn:E1; simpl; try discriminate;
    [| exact (fun _ => at_index_never_aborts _ _ _ E1)].
  destruct (at_index tfVerts (v2 t)) eqn:E2; simpl; try discriminate.
  exact (fun _ => at_index_never_aborts _ _ _ E2).
Qed.

(** C10, as amended.  No query looks at the lifecycle state and none stops
    the program on purpose.  [area] returns the member [_totalArea] in every
    state.  With the sampler pointer null (the state the constructor leaves,
    until [makeSamplable]) the sampling queries dereference it, and with the
    intersector pointer null (until [prepareForRender], and again after
    [cleanupAfterRender]) [intersect] dereferences it: the behaviour is
    undefined, not an assertion failure. *)
Theorem queries_do_not_check_the_lifecycle
    (m : TriangleMesh F) (sample : LightSample F) (ray : Ray F)
    (data : IntersectionTemporary F) :
  area m = Returns (_totalArea m)
  /\ (_triSampler m = None ->
      sampleInboundDirection m sample = Undefined
      /\ sampleOutboundDirection m sample = Undefined)
  /\ (_intersector m = None -> intersect m ray data = Undefined)
  /\ sampleInboundDirection m sample <> Aborts
  /\ sampleOutboundDirection m sample <> Aborts
  /\ intersect m ray data <> Aborts
  /\ _intersector (cleanupAfterRender m) = None
  /\ (forall transform garbage box verts tris smoothed,
        let fresh := newTriangleMesh transform garbage box verts tris smoothed in
        _triSampler fresh = None /\ _intersector fresh = None
        /\ area fresh = Returns garbage)
  /\ (forall transform garbage box,
        let fresh := defaultTriangleMesh transform garbage box in
        _triSampler fresh = None /\ _intersector fresh = None
        /\ area fresh = Returns garbage).
Proof.
  split; [reflexivity|].
  split.
  { intros Hs. split.
    - unfold sampleInboundDirection.
      destruct (next1D (sampler sample)). rewrite Hs. reflexivity.
    - unfold sampleOutboundDirection.
      destruct (next1D (sampler sample)). rewrite Hs. reflexivity. }
  split.
  { intros Hi. unfold intersect. rewrite Hi. reflexivity. }
  split.
  { unfold sampleInboundDirection.
    destruct (next1D (sampler sample)) as [u rng1].
    destruct (_triSampler m) as [d|]; [| discriminate].
    destruct (at_index (_tris m) (warp d u)) as [t| |] eqn:Et; simpl; try discriminate;
      [| exact (fun _ => at_index_never_aborts _ _ _ Et)].
    destruct (corners (_tfVerts m) t) as [[[a b] c]| |] eqn:Ec; simpl; try discriminate;
      [| exact (fun _ => corners_never_aborts _ _ Ec)].
    destruct (next2D rng1).
    destruct_guard; discriminate. }
  split.
  { unfold sampleOutboundDirection.
    destruct (next1D (sampler sample)) as [u rng1].
    destruct (_triSampler m) as [d|]; [| discriminate].
    destruct (at_index (_tris m) (warp d u)) as [t| |] eqn:Et; simpl; try discriminate;
      [| exact (fun _ => at_index_never_aborts _ _ _ Et)].
    destruct (corners (_tfVerts m) t) as [[[a b] c]| |] eqn:Ec; simpl; try discriminate;
      [| exact (fun _ => corners_never_aborts _ _ Ec)].
    destruct (next2D rng1) as [xi rng2]. destruct (next2D rng2). discriminate. }
  split.
  { unfold intersect. destruct (_intersector m); [| discriminate].
    destruct_guard; discriminate. }
  split; [reflexivity|].
  split; intros; repeat split.
Qed.

(** *** Further properties of the queries *)

(** After a hit, [hitBackside] is the sign test [intersect] made with the
    normal it recorded, and the record names the mesh. *)
Lemma hitBackside_after_intersect
    (m : TriangleMesh F) (ray ray' : Ray F) (data data' : IntersectionTemporary F) :
  intersect m ray data = Returns (true, ray', data') ->
  hitBackside data' = (dot (isect_Ng (data_isect data')) (ray_dir ray) >? fzero)
  /\ data_primitive data' = Some m
  /\ ray_pos ray' = ray_pos ray /\ ray_dir ray' = ray_dir ray.
Proof.
  intros Hrun. destruct (_intersector m) as [i|] eqn:Hi.
  - rewrite (intersect_run m i ray data Hi) in Hrun.
    destruct (rtcIntersect i (toERay ray)) as [h|]; [| discriminate].
    destruct (hit_distance h <? farT ray); [| discriminate].
    injection Hrun as <- <-. repeat split.
  - unfold intersect in Hrun. rewrite Hi in Hrun. discriminate.
Qed.

(** The lifecycle.  [prepareForRender] only reads the vertices, the
    triangles and the transform, none of which it changes: preparing a
    prepared mesh gives the same mesh.  [cleanupAfterRender] empties the
    transformed-vertex cache and drops the oracle's handles; the cached total
    area stays.  [makeSamplable] leaves a sampler behind. *)
Lemma lifecycle_transitions (m m' : TriangleMesh F) :
  (prepareForRender m = Returns m' ->
     prepareForRender m' = Returns m'
     /\ _intersector m' <> None
     /\ _verts m' = _verts m /\ _tris m' = _tris m
     /\ _triSampler m' = _triSampler m)
  /\ _tfVerts (cleanupAfterRender m) = []
  /\ _geom (cleanupAfterRender m) = None
  /\ _intersector (cleanupAfterRender m) = None
  /\ _totalArea (cleanupAfterRender m) = _totalArea m
  /\ (makeSamplable m = Returns m' -> isSamplable m' = true).
Proof.
  split.
  - unfold prepareForRender. intros H.
    destruct (accumulateArea _ (_tris m) fzero) as [total| |] eqn:Ha;
      simpl in H; try discriminate.
    injection H as <-. simpl. rewrite Ha. simpl.
    repeat split. discriminate.
  - repeat split. unfold makeSamplable. intros H.
    destruct (collectAreas (_tfVerts m) (_tris m) fzero) as [[areas total]| |];
      simpl in H; try discriminate.
    injection H as <-. reflexivity.
Qed.

End MeshProperties.

(** ** Exact arithmetic *)

Section ExactArithmetic.
Context {C : Collaborators R}.
Local Open Scope R_scope.

Lemma Rltb_true (x y : R) : Rltb x y = true <-> x < y.
Proof. unfold Rltb. destruct (Rlt_dec x y); split; intros; try easy. Qed.

Lemma Rltb_false (x y : R) : Rltb x y = false <-> y <= x.
Proof.
  unfold Rltb. destruct (Rlt_dec x y); split; intros; try easy; lra.
Qed.

(** At the corners of the barycentric triangle the interpolations return
    the attribute of the corresponding vertex: the texture coordinate itself,
    and the vertex normal renormalized. *)
Lemma interpolation_at_corners_exact
    (m : TriangleMesh R) (triangle : Z) (t : TriangleI) (a b c : Vertex R) :
  at_index (_tris m) triangle = Returns t ->
  corners (_tfVerts m) t = Returns (a, b, c) ->
  uvAt m triangle 0 0 = Returns (uv a)
  /\ uvAt m triangle 1 0 = Returns (uv b)
  /\ uvAt m triangle 0 1 = Returns (uv c)
  /\ normalAt m triangle 0 0 = Returns (normalized (normal a))
  /\ normalAt m triangle 1 0 = Returns (normalized (normal b))
  /\ normalAt m triangle 0 1 = Returns (normalized (normal c)).
Proof.
  intros Ht Hc. unfold uvAt, normalAt. rewrite Ht. simpl. rewrite Hc. simpl.
  destruct a as [pa [nax nay naz] [uax uay]],
           b as [pb [nbx nby nbz] [ubx uby]],
           c as [pc [ncx ncy ncz] [ucx ucy]].
  unfold vadd2, smul2, vadd, smul. simpl.
  repeat split;
    [ do 2 f_equal; ring | do 2 f_equal; ring | do 2 f_equal; ring
    | do 3 f_equal; ring | do 3 f_equal; ring | do 3 f_equal; ring ].
Qed.

(** When [tangentSpace] returns a frame, the determinant is at least 1e-4
    in magnitude and the frame solves the system
    [q1 = s1 T + t1 B], [q2 = s2 T + t2 B]. *)
Lemma tangentSpace_solves_system
    (m : TriangleMesh R) (data : IntersectionTemporary R)
    (t : TriangleI) (a b c : Vertex R) (T B : Vec3f R) :
  at_index (_tris m) (isect_id0 (data_isect data)) = Returns t ->
  corners (_tfVerts m) t = Returns (a, b, c) ->
  tangentSpace m data = Returns (Some (T, B)) ->
  let q1 := vsub (pos b) (pos a) in
  let q2 := vsub (pos c) (pos a) in
  let s1 := ux (uv b) - ux (uv a) in
  let t1 := uy (uv b) - uy (uv a) in
  let s2 := ux (uv c) - ux (uv a) in
  let t2 := uy (uv c) - uy (uv a) in
  1 / 10000 <= Rabs (s1 * t2 - s2 * t1)
  /\ vadd (smul s1 T) (smul t1 B) = q1
  /\ vadd (smul s2 T) (smul t2 B) = q2.
Proof.
  intros Ht Hc Hrun q1 q2 s1 t1 s2 t2.
  rewrite (tangentSpace_formula m data t a b c Ht Hc) in Hrun.
  simpl in Hrun. fold s1 t1 s2 t2 in Hrun.
  destruct (Rltb (Rabs (s1 * t2 - s2 * t1)) (1 / 10000)) eqn:Hsmall;
    [discriminate|].
  apply Rltb_false in Hsmall.
  assert (Hdet : s1 * t2 - s2 * t1 <> 0).
  { intros H0. rewrite H0, Rabs_R0 in Hsmall. lra. }
  injection Hrun as <- <-.
  split; [exact Hsmall|].
  subst q1 q2. destruct (pos a), (pos b), (pos c).
  unfold vadd, vsub, smul, vmul. simpl.
  split; f_equal; field; exact Hdet.
Qed.

(** [tangentSpace] returns no frame exactly when the determinant is below
    1e-4 in magnitude. *)
Lemma tangentSpace_fails_iff
    (m : TriangleMesh R) (data : IntersectionTemporary R)
    (t : TriangleI) (a b c : Vertex R) :
  at_index (_tris m) (isect_id0 (data_isect data)) = Returns t ->
  corners (_tfVerts m) t = Returns (a, b, c) ->
  let s1 := ux (uv b) - ux (uv a) in
  let t1 := uy (uv b) - uy (uv a) in
  let s2 := ux (uv c) - ux (uv a) in
  let t2 := uy (uv c) - uy (uv a) in
  tangentSpace m data = Returns None <-> Rabs (s1 * t2 - s2 * t1) < 1 / 10000.
Proof.
  intros Ht Hc s1 t1 s2 t2.
  rewrite (tangentSpace_formula m data t a b c Ht Hc).
  simpl. fold s1 t1 s2 t2.
  destruct (Rltb (Rabs (s1 * t2 - s2 * t1)) (1 / 10000)) eqn:Hsmall.
  - apply Rltb_true in Hsmall. split; [intros _; exact Hsmall | reflexivity].
  - apply Rltb_false in Hsmall. split; [discriminate | intros H; lra].
Qed.

(** The pdf of a realized hit against the pdf of the sample that would have
    produced it: [inboundPdf] returns the sampled pdf when the hit's stored
    normal renormalizes to the normal the sampling uses, and its opposite
    when it is the geometric normal of [intersectionInfo] (the stored normal
    renormalized and negated) that equals the sampling normal. *)
Lemma inboundPdf_against_sampled_pdf
    (m : TriangleMesh R) (sample : LightSample R)
    (triSampler : Distribution1D R) (t : TriangleI) (a b c : Vertex R)
    (data : IntersectionTemporary R) :
  _triSampler m = Some triSampler ->
  at_index (_tris m) (warp triSampler (fst (next1D (sampler sample)))) = Returns t ->
  corners (_tfVerts m) t = Returns (a, b, c) ->
  let nrm := normalized (cross (vsub (pos b) (pos a)) (vsub (pos c) (pos a))) in
  let p := uniformTriangle (fst (next2D (snd (next1D (sampler sample)))))
                           (pos a) (pos b) (pos c) in
  isect_p (data_isect data) = p ->
  exists accepted sample',
    sampleInboundDirection m sample = Returns (accepted, sample')
    /\ (accepted = true ->
        (normalized (isect_Ng (data_isect data)) = nrm ->
         inboundPdf m data (sample_p sample) (sample_d sample')
         = Returns (sample_pdf sample'))
        /\ (vneg (normalized (isect_Ng (data_isect data))) = nrm ->
            inboundPdf m data (sample_p sample) (sample_d sample')
            = Returns (- sample_pdf sample'))).
Proof.
  intros Hs Ht Hc nrm p Hp.
  pose proof (sampleInboundDirection_run m sample triSampler t a b c Hs Ht Hc) as Hrun.
  cbv zeta in Hrun. fold nrm p in Hrun.
  do 2 eexists. split; [exact Hrun|].
  intros Hacc. apply negb_true_iff in Hacc. rewrite Hacc.
  unfold inboundPdf. rewrite Hp. cbn [sample_p sample_d sample_pdf].
  set (d := vdiv (vsub p (sample_p sample)) (fsqrt (lengthSq (vsub p (sample_p sample))))).
  assert (Hsq : lengthSq (vsub (sample_p sample) p) = lengthSq (vsub p (sample_p sample))).
  { unfold lengthSq, vsub. simpl. ring. }
  rewrite Hsq.
  split; intros Hn.
  - assert (Hdot : dot d (normalized (isect_Ng (data_isect data))) = dot nrm d).
    { rewrite Hn. unfold dot. simpl. ring. }
    rewrite Hdot. reflexivity.
  - assert (Hdot : dot d (normalized (isect_Ng (data_isect data))) = (- dot nrm d)%R).
    { rewrite <- Hn. unfold dot, vneg. simpl. ring. }
    rewrite Hdot. f_equal. simpl. unfold Rdiv.
    rewrite !Rinv_mult, !Rinv_opp. ring.
Qed.

Lemma normalized_vneg (x : Vec3f R) : normalized (vneg x) = vneg (normalized x).
Proof.
  destruct x as [x y z]. unfold normalized, length, vmul, vneg. simpl.
  assert (Hsq : lengthSq (vneg (Vec3 x y z)) = lengthSq (Vec3 x y z)).
  { unfold lengthSq, vneg. simpl. ring. }
  unfold vneg in Hsq. simpl in Hsq. rewrite Hsq.
  f_equal; ring.
Qed.

(** With the normal the Embree 1 triangle intersectors report for a hit on
    the triangle [(p0, p1, p2)], [cross(p0 - p1, p2 - p0)], [inboundPdf]
    returns the opposite of the sampled pdf, for every mesh, reference point
    and random stream. *)
Lemma inboundPdf_is_negated_for_the_oracle_normal
    (m : TriangleMesh R) (sample : LightSample R)
    (triSampler : Distribution1D R) (t : TriangleI) (a b c : Vertex R)
    (data : IntersectionTemporary R) :
  _triSampler m = Some triSampler ->
  at_index (_tris m) (warp triSampler (fst (next1D (sampler sample)))) = Returns t ->
  corners (_tfVerts m) t = Returns (a, b, c) ->
  isect_p (data_isect data)
  = uniformTriangle (fst (next2D (snd (next1D (sampler sample)))))
                    (pos a) (pos b) (pos c) ->
  isect_Ng (data_isect data) = cross (vsub (pos a) (pos b)) (vsub (pos c) (pos a)) ->
  exists accepted sample',
    sampleInboundDirection m sample = Returns (accepted, sample')
    /\ (accepted = true ->
        inboundPdf m data (sample_p sample) (sample_d sample')
        = Returns (- sample_pdf sample')).
Proof.
  intros Hs Ht Hc Hp Hn.
  destruct (inboundPdf_against_sampled_pdf m sample triSampler t a b c data Hs Ht Hc Hp)
    as (accepted & sample' & Hrun & Hpdf).
  exists accepted, sample'. split; [exact Hrun|].
  intros Hacc. apply (proj2 (Hpdf Hacc)).
  rewrite Hn.
  assert (Hflip : cross (vsub (pos a) (pos b)) (vsub (pos c) (pos a))
                  = vneg (cross (vsub (pos b) (pos a)) (vsub (pos c) (pos a)))).
  { destruct (pos a), (pos b), (pos c). unfold cross, vsub, vneg. simpl. f_equal; ring. }
  rewrite Hflip, normalized_vneg.
  destruct (normalized (cross (vsub (pos b) (pos a)) (vsub (pos c) (pos a)))).
  unfold vneg. simpl. f_equal; ring.
Qed.

(** A vector of length one is its own renormalization. *)
Lemma normalized_of_unit_exact (n : Vec3f R) : lengthSq n = 1 -> normalized n = n.
Proof.
  intros H. unfold normalized, length. rewrite H.
  change (fsqrt 1) with (sqrt 1). rewrite sqrt_1.
  destruct n as [x y z]. unfold vmul. simpl. f_equal; field.
Qed.

(** At a corner whose vertex normal has length one, the interpolated normal
    is that vertex normal. *)
Lemma unit_normals_at_corners_exact
    (m : TriangleMesh R) (triangle : Z) (t : TriangleI) (a b c : Vertex R) :
  at_index (_tris m) triangle = Returns t ->
  corners (_tfVerts m) t = Returns (a, b, c) ->
  (lengthSq (normal a) = 1 -> normalAt m triangle 0 0 = Returns (normal a))
  /\ (lengthSq (normal b) = 1 -> normalAt m triangle 1 0 = Returns (normal b))
  /\ (lengthSq (normal c) = 1 -> normalAt m triangle 0 1 = Returns (normal c)).
Proof.
  intros Ht Hc.
  destruct (interpolation_at_corners_exact m triangle t a b c Ht Hc)
    as (_ & _ & _ & Ha & Hb & Hcc).
  repeat split; intros Hu.
  - rewrite Ha, (normalized_of_unit_exact _ Hu). reflexivity.
  - rewrite Hb, (normalized_of_unit_exact _ Hu). reflexivity.
  - rewrite Hcc, (normalized_of_unit_exact _ Hu). reflexivity.
Qed.

End ExactArithmetic.

(** ** Single precision *)

Section SinglePrecision.
Import Binary32.
Local Open Scope Z_scope.

Lemma shr_fexp_canonical (m : positive) (e : Z) :
  fexp prec emax (Zpos (digits2_pos m) + e) = e ->
  shr_fexp prec emax (Zpos m) e loc_Exact = (Build_shr_record (Zpos m) false false, e).
Proof.
  intros Hc. unfold shr_fexp, Zdigits2. rewrite Hc, Z.sub_diag. reflexivity.
Qed.

Lemma shr_fexp_shifted (m : positive) (e : Z) :
  fexp prec emax (Zpos (digits2_pos m) + e) = e ->
  shr_fexp prec emax (Zpos (Pos.mul 8388608 m)) (-23 + e) loc_Exact
  = (Build_shr_record (Zpos m) false false, e).
Proof.
  intros Hc. unfold shr_fexp, Zdigits2.
  replace (Zpos (digits2_pos (Pos.mul 8388608 m)) + (-23 + e))
    with (Zpos (digits2_pos m) + e) by (cbn [Pos.mul digits2_pos]; lia).
  rewrite Hc. replace (e - (-23 + e)) with 23 by lia.
  cbn [shr_record_of_loc]. unfold shr. f_equal. lia.
Qed.

(** [1.0f * x] is [x]. *)
Lemma SFmul_one_l (x : binary32) :
  well_formed x = true -> SFmul prec emax one x = x.
Proof.
  destruct x as [s|s| |s m e]; try reflexivity.
  unfold well_formed, valid_binary, bounded, canonical_mantissa.
  intros H. apply andb_prop in H. destruct H as [Hc Hb].
  apply Z.eqb_eq in Hc.
  unfold one, SFmul, binary_round_aux.
  rewrite (shr_fexp_shifted m e Hc).
  cbn [shr_m loc_of_shr_record round_nearest_even].
  rewrite (shr_fexp_canonical m e Hc). cbn [shr_m].
  rewrite Hb. reflexivity.
Qed.

(** [0.0f * x] is a zero when [x] is a number. *)
Lemma SFmul_zero_l (x : binary32) :
  is_finite x = true -> is_zero (SFmul prec emax zero x) = true.
Proof. destruct x; simpl; intros H; try discriminate; reflexivity. Qed.

Lemma same_number_refl (x : binary32) : same_number x x.
Proof. left; reflexivity. Qed.

Lemma same_number_add_zero (x y z : binary32) :
  same_number y x -> is_zero z = true -> same_number (SFadd prec emax y z) x.
Proof.
  intros [-> | [Hy Hx]] Hz; destruct z as [sz| | |]; try discriminate.
  - destruct x as [[|]| | |]; destruct sz; simpl;
      first [left; reflexivity | right; split; reflexivity].
  - destruct y as [[|]| | |]; try discriminate.
    all: destruct sz; right; split; try assumption; reflexivity.
Qed.

Lemma same_number_zero_add (x z : binary32) :
  is_zero z = true -> same_number (SFadd prec emax z x) x.
Proof.
  intros Hz; destruct z as [sz| | |]; try discriminate.
  destruct x as [[|]| | |]; destruct sz; simpl;
    first [left; reflexivity | right; split; reflexivity].
Qed.

Lemma is_zero_add (y z : binary32) :
  is_zero y = true -> is_zero z = true -> is_zero (SFadd prec emax y z) = true.
Proof.
  destruct y as [[|]| | |], z as [[|]| | |]; simpl; intros; try discriminate; reflexivity.
Qed.

Lemma is_number_split (x : binary32) :
  is_number x = true -> well_formed x = true /\ is_finite x = true.
Proof. unfold is_number. intros H. apply andb_prop in H. exact H. Qed.

(** The three interpolations [(1-u-v)*x0 + u*x1 + v*x2] at the corners. *)
Lemma interpolate_corners (x0 x1 x2 : binary32) :
  is_number x0 = true -> is_number x1 = true -> is_number x2 = true ->
  same_number (fadd (fadd (fmul (fsub (fsub fone fzero) fzero) x0) (fmul fzero x1))
                    (fmul fzero x2)) x0
  /\ same_number (fadd (fadd (fmul (fsub (fsub fone fone) fzero) x0) (fmul fone x1))
                       (fmul fzero x2)) x1
  /\ same_number (fadd (fadd (fmul (fsub (fsub fone fzero) fone) x0) (fmul fzero x1))
                       (fmul fone x2)) x2.
Proof.
  intros H0 H1 H2.
  apply is_number_split in H0, H1, H2.
  destruct H0 as [W0 F0], H1 as [W1 F1], H2 as [W2 F2].
  change (fsub (fsub fone fzero) fzero) with one.
  change (fsub (fsub fone fone) fzero) with zero.
  change (fsub (fsub fone fzero) fone) with zero.
  cbn [fadd fmul fone fzero binary32_scalar].
  rewrite (SFmul_one_l x0 W0), (SFmul_one_l x1 W1), (SFmul_one_l x2 W2).
  pose proof (SFmul_zero_l x0 F0) as Z0.
  pose proof (SFmul_zero_l x1 F1) as Z1.
  pose proof (SFmul_zero_l x2 F2) as Z2.
  repeat split.
  - apply same_number_add_zero; [| exact Z2].
    apply same_number_add_zero; [apply same_number_refl | exact Z1].
  - apply same_number_add_zero; [| exact Z2].
    apply same_number_zero_add. exact Z0.
  - apply same_number_zero_add. apply is_zero_add; assumption.
Qed.

Lemma same_number_square (x y : binary32) :
  same_number x y -> SFmul prec emax x x = SFmul prec emax y y.
Proof.
  intros [-> | [Hx Hy]]; [reflexivity|].
  destruct x as [[|]| | |], y as [[|]| | |]; try discriminate; reflexivity.
Qed.

Lemma same_number_scale (x y k : binary32) :
  same_number x y -> same_number (SFmul prec emax x k) (SFmul prec emax y k).
Proof.
  intros [-> | [Hx Hy]]; [left; reflexivity|].
  destruct x as [sx| | |], y as [sy| | |]; try discriminate.
  destruct k as [sk|sk| |sk mk ek]; simpl;
    first [left; reflexivity | right; split; reflexivity].
Qed.

(** Renormalization does not tell the sign of a zero component apart,
    beyond the sign of the zero it returns there. *)
Lemma normalized_same (a b : Vec3f binary32) :
  same_vec3 a b -> same_vec3 (normalized a) (normalized b).
Proof.
  intros (Hx & Hy & Hz).
  unfold normalized, length, lengthSq, vmul.
  cbn [fadd fmul fdiv fsqrt fone binary32_scalar vx vy vz].
  rewrite (same_number_square _ _ Hx), (same_number_square _ _ Hy),
          (same_number_square _ _ Hz).
  repeat split; apply same_number_scale; assumption.
Qed.


(** The corners again, in single precision: for vertices whose normals and
    texture coordinates are numbers, the interpolations at the corners
    return values that are the same as the vertex attribute ([uvAt]) and as
    the renormalized vertex normal ([normalAt]). *)
Lemma interpolation_at_corners_single
    {C : Collaborators binary32}
    (m : TriangleMesh binary32) (triangle : Z) (t : TriangleI)
    (a b c : Vertex binary32) :
  at_index (_tris m) triangle = Returns t ->
  corners (_tfVerts m) t = Returns (a, b, c) ->
  numbers2 (uv a) && numbers2 (uv b) && numbers2 (uv c) = true ->
  numbers3 (normal a) && numbers3 (normal b) && numbers3 (normal c) = true ->
  (exists r0 r1 r2,
      uvAt m triangle fzero fzero = Returns r0 /\ same_vec2 r0 (uv a)
      /\ uvAt m triangle fone fzero = Returns r1 /\ same_vec2 r1 (uv b)
      /\ uvAt m triangle fzero fone = Returns r2 /\ same_vec2 r2 (uv c))
  /\
  (exists n0 n1 n2,
      normalAt m triangle fzero fzero = Returns n0
      /\ same_vec3 n0 (normalized (normal a))
      /\ normalAt m triangle fone fzero = Returns n1
      /\ same_vec3 n1 (normalized (normal b))
      /\ normalAt m triangle fzero fone = Returns n2
      /\ same_vec3 n2 (normalized (normal c))).
Proof.
  intros Ht Hc Huv Hn.
  unfold numbers2 in Huv. unfold numbers3 in Hn.
  repeat match goal with
         | H : _ && _ = true |- _ => apply andb_prop in H; destruct H
         end.
  pose proof (interpolate_corners (ux (uv a)) (ux (uv b)) (ux (uv c))) as Ux.
  pose proof (interpolate_corners (uy (uv a)) (uy (uv b)) (uy (uv c))) as Uy.
  pose proof (interpolate_corners (vx (normal a)) (vx (normal b)) (vx (normal c))) as Nx.
  pose proof (interpolate_corners (vy (normal a)) (vy (normal b)) (vy (normal c))) as Ny.
  pose proof (interpolate_corners (vz (normal a)) (vz (normal b)) (vz (normal c))) as Nz.
  destruct Ux as (Ux0 & Ux1 & Ux2); try assumption.
  destruct Uy as (Uy0 & Uy1 & Uy2); try assumption.
  destruct Nx as (Nx0 & Nx1 & Nx2); try assumption.
  destruct Ny as (Ny0 & Ny1 & Ny2); try assumption.
  destruct Nz as (Nz0 & Nz1 & Nz2); try assumption.
  unfold uvAt, normalAt. rewrite Ht. simpl bind. rewrite Hc. simpl bind.
  split.
  - do 3 eexists.
    split; [reflexivity|]. split; [split; assumption|].
    split; [reflexivity|]. split; [split; assumption|].
    split; [reflexivity|]. split; assumption.
  - do 3 eexists.
    split; [reflexivity|].
    split; [apply normalized_same; repeat split; assumption|].
    split; [reflexivity|].
    split; [apply normalized_same; repeat split; assumption|].
    split; [reflexivity|].
    apply normalized_same; repeat split; assumption.
Qed.

(** *** Symmetries of the single-precision operations *)

Lemma SFmul_comm (x y : binary32) : SFmul prec emax x y = SFmul prec emax y x.
Proof.
  destruct x as [sx|sx| |sx mx ex], y as [sy|sy| |sy my ey]; simpl;
    try reflexivity; try (rewrite xorb_comm; reflexivity).
  rewrite xorb_comm, Pos.mul_comm, Z.add_comm. reflexivity.
Qed.

Lemma binary_round_aux_opp (s : bool) (m e : Z) (l : location) :
  binary_round_aux prec emax (negb s) m e l = SFopp (binary_round_aux prec emax s m e l).
Proof.
  unfold binary_round_aux.
  destruct (shr_fexp prec emax m e l) as [mrs' e'].
  destruct (shr_fexp prec emax _ e' loc_Exact) as [mrs'' e''].
  destruct (shr_m mrs''); try reflexivity.
  destruct (e'' <=? emax - prec); reflexivity.
Qed.

Lemma binary_round_opp (s : bool) (m : positive) (e : Z) :
  binary_round prec emax (negb s) m e = SFopp (binary_round prec emax s m e).
Proof.
  unfold binary_round.
  destruct (shl_align m e _) as [mz ez]. apply binary_round_aux_opp.
Qed.

Lemma binary_normalize_opp (m e : Z) :
  binary_normalize prec emax (- m) e false = SFopp (binary_normalize prec emax m e false)
  \/ binary_normalize prec emax (- m) e false = binary_normalize prec emax m e false.
Proof.
  destruct m as [|p|p]; simpl.
  - right; reflexivity.
  - left. exact (binary_round_opp false p e).
  - left. exact (binary_round_opp true p e).
Qed.

(** [b - a] is the opposite of [a - b], or both are the same zero. *)
Lemma SFsub_swap (a b : binary32) :
  SFsub prec emax b a = SFopp (SFsub prec emax a b)
  \/ SFsub prec emax b a = SFsub prec emax a b.
Proof.
  destruct a as [sa|sa| |sa ma ea], b as [sb|sb| |sb mb eb];
    try (destruct sa, sb; simpl; (left; reflexivity) || (right; reflexivity));
    try (destruct sa; simpl; (left; reflexivity) || (right; reflexivity));
    try (destruct sb; simpl; (left; reflexivity) || (right; reflexivity));
    try (left; reflexivity).
  cbn [SFsub].
  rewrite (Z.min_comm eb ea).
  match goal with
  | |- binary_normalize _ _ (?zb - ?za) _ _ = _ \/ _ =>
      replace (zb - za) with (- (za - zb)) by lia
  end.
  apply binary_normalize_opp.
Qed.

Lemma SFmul_opp_opp (x : binary32) :
  SFmul prec emax (SFopp x) (SFopp x) = SFmul prec emax x x.
Proof. destruct x as [[|]|[|]| |[|] m e]; reflexivity. Qed.

Lemma square_of_difference (a b : binary32) :
  SFmul prec emax (SFsub prec emax b a) (SFsub prec emax b a)
  = SFmul prec emax (SFsub prec emax a b) (SFsub prec emax a b).
Proof.
  destruct (SFsub_swap a b) as [-> | ->]; [apply SFmul_opp_opp | reflexivity].
Qed.

Lemma lengthSq_swap (p q : Vec3f binary32) :
  lengthSq (vsub q p) = lengthSq (vsub p q).
Proof.
  unfold lengthSq, vsub. cbn [vx vy vz fadd fmul fsub binary32_scalar].
  rewrite (square_of_difference (vx p) (vx q)), (square_of_difference (vy p) (vy q)),
          (square_of_difference (vz p) (vz q)).
  reflexivity.
Qed.

Lemma dot_comm (p q : Vec3f binary32) : dot p q = dot q p.
Proof.
  unfold dot. cbn [fadd fmul binary32_scalar].
  rewrite (SFmul_comm (vx p)), (SFmul_comm (vy p)), (SFmul_comm (vz p)).
  reflexivity.
Qed.

(** In single precision, bit for bit: [inboundPdf] returns the sampled pdf
    for the hit at the sampled point, seen from the reference point along
    the sampled direction, when the hit's stored normal renormalizes to the
    normal the sampling uses. *)
Lemma inboundPdf_is_sampled_pdf_for_equal_normals
    {C : Collaborators binary32}
    (m : TriangleMesh binary32) (sample : LightSample binary32)
    (triSampler : Distribution1D binary32) (t : TriangleI) (a b c : Vertex binary32)
    (data : IntersectionTemporary binary32) :
  _triSampler m = Some triSampler ->
  at_index (_tris m) (warp triSampler (fst (next1D (sampler sample)))) = Returns t ->
  corners (_tfVerts m) t = Returns (a, b, c) ->
  let nrm := normalized (cross (vsub (pos b) (pos a)) (vsub (pos c) (pos a))) in
  let p := uniformTriangle (fst (next2D (snd (next1D (sampler sample)))))
                           (pos a) (pos b) (pos c) in
  isect_p (data_isect data) = p ->
  normalized (isect_Ng (data_isect data)) = nrm ->
  exists accepted sample',
    sampleInboundDirection m sample = Returns (accepted, sample')
    /\ (accepted = true ->
        inboundPdf m data (sample_p sample) (sample_d sample')
        = Returns (sample_pdf sample')).
Proof.
  intros Hs Ht Hc nrm p Hp Hn.
  pose proof (sampleInboundDirection_run m sample triSampler t a b c Hs Ht Hc) as Hrun.
  cbv zeta in Hrun. fold nrm p in Hrun.
  do 2 eexists. split; [exact Hrun|].
  intros Hacc. apply negb_true_iff in Hacc. rewrite Hacc.
  unfold inboundPdf. rewrite Hp, Hn. cbn [sample_p sample_d sample_pdf].
  rewrite (lengthSq_swap p (sample_p sample)).
  rewrite (dot_comm _ nrm). reflexivity.
Qed.

(** *** Order *)

Lemma SFltb_trans (a b c : binary32) :
  SFltb a b = true -> SFltb b c = true -> SFltb a c = true.
Proof.
  unfold SFltb.
  destruct a as [sa|sa| |sa ma ea], b as [sb|sb| |sb mb eb], c as [sc|sc| |sc mc ec];
    simpl; try discriminate;
    try (destruct sa; simpl; try discriminate);
    try (destruct sb; simpl; try discriminate);
    try (destruct sc; simpl; try discriminate);
    try reflexivity.
  all: rewrite ?Pos.compare_cont_spec; simpl.
  all: destruct (Z.compare_spec ea eb); destruct (Z.compare_spec eb ec);
       destruct (Z.compare_spec ea ec); try discriminate; try reflexivity; try lia;
       subst.
  all: destruct (Pos.compare_spec ma mb); destruct (Pos.compare_spec mb mc);
       destruct (Pos.compare_spec ma mc); simpl; try discriminate; try reflexivity; try lia.
Qed.

Lemma notAbove_trans (a b c : binary32) :
  notAbove a b -> notAbove b c -> notAbove a c.
Proof.
  unfold notAbove. intros [-> | Hab] [-> | Hbc]; auto.
  right. exact (SFltb_trans c b a Hbc Hab).
Qed.

(** A sequence in which each element is not above the one before it is a
    sequence in which each element is not above any earlier one. *)
Lemma nonIncreasing_all_pairs (fs : list binary32) :
  nonIncreasing fs -> StronglySorted notAbove fs.
Proof.
  induction fs as [|a rest IH]; intros H; [constructor|].
  destruct rest as [|b rest'].
  - constructor; constructor.
  - destruct H as [Hab Hrest]. specialize (IH Hrest).
    constructor; [exact IH|].
    constructor; [exact Hab|].
    inversion IH as [|? ? _ Hall]; subst.
    clear - Hab Hall.
    induction Hall as [|c l Hc _ IHl]; constructor; [| exact IHl].
    exact (notAbove_trans a b c Hab Hc).
Qed.

(** *** Unit normals *)

(** A vector of numbers whose squared length is computed as exactly 1 is its
    own renormalization: the length and its reciprocal are 1, and
    multiplying by 1 is exact. *)
Lemma normalized_of_unit_single (n : Vec3f binary32) :
  numbers3 n = true -> lengthSq n = one -> normalized n = n.
Proof.
  intros Hn H. unfold normalized, length. rewrite H.
  change (fdiv fone (fsqrt one)) with one.
  unfold numbers3 in Hn.
  apply andb_prop in Hn. destruct Hn as [Hn Hz].
  apply andb_prop in Hn. destruct Hn as [Hx Hy].
  apply is_number_split in Hx, Hy, Hz.
  destruct n as [x y z]. unfold vmul. cbn [vx vy vz fmul binary32_scalar] in *.
  rewrite (SFmul_comm x one), (SFmul_comm y one), (SFmul_comm z one).
  rewrite (SFmul_one_l x (proj1 Hx)), (SFmul_one_l y (proj1 Hy)),
          (SFmul_one_l z (proj1 Hz)).
  reflexivity.
Qed.

Lemma unit_normals_at_corners_single
    {C : Collaborators binary32}
    (m : TriangleMesh binary32) (triangle : Z) (t : TriangleI)
    (a b c : Vertex binary32) :
  at_index (_tris m) triangle = Returns t ->
  corners (_tfVerts m) t = Returns (a, b, c) ->
  numbers2 (uv a) && numbers2 (uv b) && numbers2 (uv c) = true ->
  numbers3 (normal a) && numbers3 (normal b) && numbers3 (normal c) = true ->
  (lengthSq (normal a) = one ->
   exists n0, normalAt m triangle zero zero = Returns n0 /\ same_vec3 n0 (normal a))
  /\ (lengthSq (normal b) = one ->
      exists n1, normalAt m triangle one zero = Returns n1 /\ same_vec3 n1 (normal b))
  /\ (lengthSq (normal c) = one ->
      exists n2, normalAt m triangle zero one = Returns n2 /\ same_vec3 n2 (normal c)).
Proof.
  intros Ht Hc Huv Hn.
  destruct (interpolation_at_corners_single m triangle t a b c Ht Hc Huv Hn)
    as (_ & n0 & n1 & n2 & H0 & S0 & H1 & S1 & H2 & S2).
  apply andb_prop in Hn. destruct Hn as [Hn Hnc].
  apply andb_prop in Hn. destruct Hn as [Hna Hnb].
  repeat split; intros Hu.
  - exists n0. split; [exact H0|].
    rewrite (normalized_of_unit_single _ Hna Hu) in S0. exact S0.
  - exists n1. split; [exact H1|].
    rewrite (normalized_of_unit_single _ Hnb Hu) in S1. exact S1.
  - exists n2. split; [exact H2|].
    rewrite (normalized_of_unit_single _ Hnc Hu) in S2. exact S2.
Qed.

End SinglePrecision.

(** ** The claims that involve a particular arithmetic, and concrete runs *)

Import Binary32.

(** The scenes are what the code produces: the two meshes are the results of
    [prepareForRender] followed by [makeSamplable], and [hit0] is what
    [intersect] records for [ray0] on the square (a hit at distance 1). *)
Lemma scenes_are_reachable :
  Scene32.ready Scene32.square = Returns Scene32.squareReady
  /\ Scene32.ready Scene32.collapsed = Returns Scene32.collapsedReady
  /\ intersect Scene32.squareReady Scene32.ray0 Scene32.noHit
     = Returns (true, setFarT Scene32.ray0 one, Scene32.hit0).
Proof.
  split; [reflexivity|].
  split; reflexivity.
Qed.

(** C2. On the unit square (total area 1), from the point (1/4, 1/4, 1):
    [sampleInboundDirection] draws the point straight below on triangle 0,
    direction (0,0,-1), and returns the pdf 1.  The ray along that direction
    hits the same triangle at the same point; the oracle reports the normal
    (0,0,-1), which [intersectionInfo] turns into the geometric normal
    (0,0,1), the normal the sampling used.  For that hit, reference point and
    direction [inboundPdf] returns -1. *)
Theorem inboundPdf_negates_the_sampled_pdf :
  sampleInboundDirection Scene32.squareReady Scene32.sample0
  = Returns (true, mkLightSample (C := Scene32.collaborators)
                     [] Scene32.above Scene32.down one one)
  /\ intersect Scene32.squareReady
       {| ray_pos := Scene32.above; ray_dir := Scene32.down;
          nearT := zero; farT := Scene32.f32 100 0 |} Scene32.noHit
     = Returns (true,
                {| ray_pos := Scene32.above; ray_dir := Scene32.down;
                   nearT := zero; farT := one |},
                Scene32.hit0)
  /\ isect_id0 (data_isect Scene32.hit0) = 0%Z
  /\ isect_p (data_isect Scene32.hit0)
     = Vec3 (Scene32.f32 1 (-2)) (Scene32.f32 1 (-2)) zero
  /\ isect_Ng (data_isect Scene32.hit0) = Scene32.down
  /\ (exists info, intersectionInfo Scene32.squareReady Scene32.hit0 = Returns info
                   /\ same_vec3 (info_Ng info) Scene32.up)
  /\ inboundPdf Scene32.squareReady Scene32.hit0 Scene32.above Scene32.down
     = Returns (SFopp one).
Proof.
  split; [reflexivity|].
  split; [reflexivity|].
  split; [reflexivity|].
  split; [reflexivity|].
  split; [reflexivity|].
  split; [| reflexivity].
  eexists. split; [reflexivity|].
  split; [right; split; reflexivity|].
  split; [right; split; reflexivity | left; reflexivity].
Qed.

(** C4, as amended.  [intersectionInfo] stores: as geometric normal, the
    oracle's normal renormalized and negated; as shading normal, the
    renormalized interpolation of the three vertex normals when smoothing is
    on, and the geometric normal otherwise; as texture coordinate, the
    interpolation of the three vertex texture coordinates; all with the
    weights [(1 - u - v, u, v)] (first part, any arithmetic).  At
    [(u, v) = (0,0), (1,0), (0,1)] the interpolated texture coordinate is that
    of vertex 0, 1, 2 and the interpolated normal is the renormalized normal
    of vertex 0, 1, 2: exactly so in exact arithmetic (second part), and in
    single precision, for vertex attributes that are numbers, up to the sign
    of a zero component (third part).  Where the vertex normal has length one
    the interpolated normal is the vertex normal itself: in exact arithmetic
    (fourth part), and in single precision when the squared length is
    computed as exactly 1, up to the sign of a zero component (fifth
    part). *)
Theorem intersectionInfo_reconstructs_shading_data :
  (forall (F : Type) (SF : Scalar F) (C : Collaborators F)
          (m : TriangleMesh F) (data : IntersectionTemporary F)
          (t : TriangleI) (a b c : Vertex F),
      at_index (_tris m) (isect_id0 (data_isect data)) = Returns t ->
      corners (_tfVerts m) t = Returns (a, b, c) ->
      let u := isect_u (data_isect data) in
      let v := isect_v (data_isect data) in
      let w := fsub (fsub fone u) v in
      let Ng := vneg (normalized (isect_Ng (data_isect data))) in
      intersectionInfo m data =
        Returns {| info_Ng := Ng;
                   info_Ns :=
                     if _smoothed m
                     then normalized (vadd (vadd (smul w (normal a)) (smul u (normal b)))
                                           (smul v (normal c)))
                     else Ng;
                   info_uv := vadd2 (vadd2 (smul2 w (uv a)) (smul2 u (uv b)))
                                    (smul2 v (uv c));
                   info_primitive := Some m;
                   info_p := isect_p (data_isect data) |})
  /\
  (forall (C : Collaborators R) (m : TriangleMesh R) (triangle : Z)
          (t : TriangleI) (a b c : Vertex R),
      at_index (_tris m) triangle = Returns t ->
      corners (_tfVerts m) t = Returns (a, b, c) ->
      uvAt m triangle 0%R 0%R = Returns (uv a)
      /\ uvAt m triangle 1%R 0%R = Returns (uv b)
      /\ uvAt m triangle 0%R 1%R = Returns (uv c)
      /\ normalAt m triangle 0%R 0%R = Returns (normalized (normal a))
      /\ normalAt m triangle 1%R 0%R = Returns (normalized (normal b))
      /\ normalAt m triangle 0%R 1%R = Returns (normalized (normal c)))
  /\
  (forall (C : Collaborators binary32) (m : TriangleMesh binary32) (triangle : Z)
          (t : TriangleI) (a b c : Vertex binary32),
      at_index (_tris m) triangle = Returns t ->
      corners (_tfVerts m) t = Returns (a, b, c) ->
      numbers2 (uv a) && numbers2 (uv b) && numbers2 (uv c) = true ->
      numbers3 (normal a) && numbers3 (normal b) && numbers3 (normal c) = true ->
      (exists r0 r1 r2,
          uvAt m triangle zero zero = Returns r0 /\ same_vec2 r0 (uv a)
          /\ uvAt m triangle one zero = Returns r1 /\ same_vec2 r1 (uv b)
          /\ uvAt m triangle zero one = Returns r2 /\ same_vec2 r2 (uv c))
      /\
      (exists n0 n1 n2,
          normalAt m triangle zero zero = Returns n0
          /\ same_vec3 n0 (normalized (normal a))
          /\ normalAt m triangle one zero = Returns n1
          /\ same_vec3 n1 (normalized (normal b))
          /\ normalAt m triangle zero one = Returns n2
          /\ same_vec3 n2 (normalized (normal c))))
  /\
  (forall (C : Collaborators R) (m : TriangleMesh R) (triangle : Z)
          (t : TriangleI) (a b c : Vertex R),
      at_index (_tris m) triangle = Returns t ->
      corners (_tfVerts m) t = Returns (a, b, c) ->
      (lengthSq (normal a) = 1%R -> normalAt m triangle 0%R 0%R = Returns (normal a))
      /\ (lengthSq (normal b) = 1%R -> normalAt m triangle 1%R 0%R = Returns (normal b))
      /\ (lengthSq (normal c) = 1%R -> normalAt m triangle 0%R 1%R = Returns (normal c)))
  /\
  (forall (C : Collaborators binary32) (m : TriangleMesh binary32) (triangle : Z)
          (t : TriangleI) (a b c : Vertex binary32),
      at_index (_tris m) triangle = Returns t ->
      corners (_tfVerts m) t = Returns (a, b, c) ->
      numbers2 (uv a) && numbers2 (uv b) && numbers2 (uv c) = true ->
      numbers3 (normal a) && numbers3 (normal b) && numbers3 (normal c) = true ->
      (lengthSq (normal a) = one ->
       exists n0, normalAt m triangle zero zero = Returns n0
                  /\ same_vec3 n0 (normal a))
      /\ (lengthSq (normal b) = one ->
          exists n1, normalAt m triangle one zero = Returns n1
                     /\ same_vec3 n1 (normal b))
      /\ (lengthSq (normal c) = one ->
          exists n2, normalAt m triangle zero one = Returns n2
                     /\ same_vec3 n2 (normal c))).
Proof.
  split; [| split; [| split; [| split]]].
  - intros F SF C m data t a b c Ht Hc. exact (intersectionInfo_formula m data t a b c Ht Hc).
  - intros C m triangle t a b c Ht Hc.
    exact (interpolation_at_corners_exact m triangle t a b c Ht Hc).
  - intros C m triangle t a b c Ht Hc Huv Hn.
    exact (interpolation_at_corners_single m triangle t a b c Ht Hc Huv Hn).
  - intros C m triangle t a b c Ht Hc.
    exact (unit_normals_at_corners_exact m triangle t a b c Ht Hc).
  - intros C m triangle t a b c Ht Hc Huv Hn.
    exact (unit_normals_at_corners_single m triangle t a b c Ht Hc Huv Hn).
Qed.

(** C7, as amended.  [tangentSpace] returns no frame exactly when the
    magnitude of [s1*t2 - s2*t1], as the arithmetic at hand computes it,
    compares below 1e-4, and otherwise returns [T = (q1*t2 - t1*q2) / det] and
    [B = (q2*s1 - s2*q1) / det], the division done as a multiplication by
    [1/det] (first part, any arithmetic, single precision included).  In
    exact arithmetic that is: no frame exactly when [|s1*t2 - s2*t1| < 1e-4],
    and otherwise the solution of [q1 = s1 T + t1 B], [q2 = s2 T + t2 B]
    (second part).  In single precision the products are rounded before they
    are subtracted, and neither half holds of the exact determinant and
    system. *)
Theorem tangentSpace_solves_or_fails :
  (forall (F : Type) (SF : Scalar F) (C : Collaborators F)
          (m : TriangleMesh F) (data : IntersectionTemporary F)
          (t : TriangleI) (a b c : Vertex F),
      at_index (_tris m) (isect_id0 (data_isect data)) = Returns t ->
      corners (_tfVerts m) t = Returns (a, b, c) ->
      let q1 := vsub (pos b) (pos a) in
      let q2 := vsub (pos c) (pos a) in
      let s1 := fsub (ux (uv b)) (ux (uv a)) in
      let t1 := fsub (uy (uv b)) (uy (uv a)) in
      let s2 := fsub (ux (uv c)) (ux (uv a)) in
      let t2 := fsub (uy (uv c)) (uy (uv a)) in
      let invDet := fsub (fmul s1 t2) (fmul s2 t1) in
      tangentSpace m data =
        Returns (if flt_1em4 (fabs invDet) then None
                 else Some (smul (fdiv fone invDet) (vsub (vmul q1 t2) (smul t1 q2)),
                            smul (fdiv fone invDet) (vsub (vmul q2 s1) (smul s2 q1)))))
  /\
  (forall (C : Collaborators R) (m : TriangleMesh R) (data : IntersectionTemporary R)
          (t : TriangleI) (a b c : Vertex R),
      at_index (_tris m) (isect_id0 (data_isect data)) = Returns t ->
      corners (_tfVerts m) t = Returns (a, b, c) ->
      let q1 := vsub (pos b) (pos a) in
      let q2 := vsub (pos c) (pos a) in
      let s1 := (ux (uv b) - ux (uv a))%R in
      let t1 := (uy (uv b) - uy (uv a))%R in
      let s2 := (ux (uv c) - ux (uv a))%R in
      let t2 := (uy (uv c) - uy (uv a))%R in
      (tangentSpace m data = Returns None
       <-> (Rabs (s1 * t2 - s2 * t1) < 1 / 10000)%R)
      /\ (forall T B : Vec3f R,
             tangentSpace m data = Returns (Some (T, B)) ->
             vadd (smul s1 T) (smul t1 B) = q1
             /\ vadd (smul s2 T) (smul t2 B) = q2)).
Proof.
  split.
  - intros F SF C m data t a b c Ht Hc.
    exact (tangentSpace_formula m data t a b c Ht Hc).
  - intros C m data t a b c Ht Hc q1 q2 s1 t1 s2 t2. split.
    + exact (tangentSpace_fails_iff m data t a b c Ht Hc).
    + intros T B Hrun.
      exact (proj2 (tangentSpace_solves_system m data t a b c T B Ht Hc Hrun)).
Qed.

(** C9. A hit [intersect] reports lies inside the interval the ray asked
    for: its distance is strictly below the far bound the ray came with, and
    not below the near bound as long as the oracle's answer to the query is
    not (first part).  Over a sequence of calls on one ray, against prepared
    primitives, every call returns, and the far bound after a call is the
    far bound before it or a strictly smaller one (second part); in single
    precision the far bound after a call is therefore equal to or strictly
    below the far bound at every earlier point of the sequence (third
    part). *)
Theorem intersect_stays_in_interval_and_shrinks_far_bound :
  (forall (F : Type) (SF : Scalar F) (C : Collaborators F)
          (m : TriangleMesh F) (i : RTCIntersector1) (ray ray' : Ray F)
          (data data' : IntersectionTemporary F),
      _intersector m = Some i ->
      (forall h, rtcIntersect i (toERay ray) = Some h ->
                 fleb (nearT ray) (hit_distance h) = true) ->
      intersect m ray data = Returns (true, ray', data') ->
      fleb (nearT ray) (farT ray') = true /\ fltb (farT ray') (farT ray) = true
      /\ nearT ray' = nearT ray)
  /\
  (forall (F : Type) (SF : Scalar F) (C : Collaborators F)
          (ms : list (TriangleMesh F)) (ray : Ray F) (data : IntersectionTemporary F),
      Forall (fun m => _intersector m <> None) ms ->
      exists fs, farBounds ms ray data = Returns fs
                 /\ List.length fs = S (List.length ms)
                 /\ nonIncreasing fs)
  /\
  (forall (C : Collaborators binary32) (ms : list (TriangleMesh binary32))
          (ray : Ray binary32) (data : IntersectionTemporary binary32)
          (fs : list binary32),
      farBounds ms ray data = Returns fs -> StronglySorted notAbove fs).
Proof.
  split; [| split].
  - intros F SF C m i ray ray' data data' Hi Hnear Hrun.
    exact (intersect_hit_in_interval m i ray ray' data data' Hi Hnear Hrun).
  - intros F SF C ms ray data Hprep.
    destruct (farBounds_defined ms Hprep ray data) as [fs Hfs].
    exists fs. split; [exact Hfs|]. split.
    + exact (farBounds_length ms ray data fs Hfs).
    + exact (farBounds_nonIncreasing ms ray data fs Hfs).
  - intros C ms ray data fs Hfs.
    apply nonIncreasing_all_pairs.
    exact (farBounds_nonIncreasing ms ray data fs Hfs).
Qed.

(** C8. Whatever direction the event carries, [eval] returns the zero
    spectrum and [pdf] returns zero. *)
Theorem thin_sheet_eval_and_pdf_are_zero
    (F : Type) (SF : Scalar F) (b : ThinSheetBsdf F) (event : SurfaceScatterEvent F) :
  eval b event = Vec3 fzero fzero fzero /\ pdf b event = fzero.
Proof. split; reflexivity. Qed.

(** C5, counterexample.  The collapsed mesh has total area zero, and
    [sampleInboundDirection] accepts the sample it draws on it, with a NaN
    pdf.  On the square, for the hit [hit0] seen along (0,0,-1), the cosine
    [inboundPdf] divides by is -1: it returns the pdf -1; seen along
    (1,0,0) the cosine is zero: it returns an infinite pdf. *)
Lemma zero_area_and_nonpositive_cosine_are_not_rejected :
  _totalArea Scene32.collapsedReady = zero
  /\ (exists sample',
         sampleInboundDirection Scene32.collapsedReady Scene32.sample0
         = Returns (true, sample')
         /\ sample_pdf sample' = nan)
  /\ fleb (fneg (dot Scene32.down (normalized (isect_Ng (data_isect Scene32.hit0)))))
          fzero = true
  /\ inboundPdf Scene32.squareReady Scene32.hit0 Scene32.above Scene32.down
     = Returns (SFopp one)
  /\ inboundPdf Scene32.squareReady Scene32.hit0 Scene32.above Scene32.sideways
     = Returns (S754_infinity true).
Proof.
  split; [reflexivity|].
  split; [eexists; split; reflexivity|].
  split; [reflexivity|].
  split; reflexivity.
Qed.

(** C10, counterexample.  On the square as constructed, before any
    [prepareForRender] ([_tfVerts] empty, no intersector, no sampler),
    [area] returns: the 7 its member happened to hold. *)
Lemma area_of_an_unprepared_mesh_returns :
  _tfVerts Scene32.square = []
  /\ _intersector Scene32.square = None
  /\ isSamplable Scene32.square = false
  /\ area Scene32.square = Returns (Scene32.f32 7 0)
  /\ area Scene32.square <> Aborts.
Proof.
  split; [reflexivity|].
  split; [reflexivity|].
  split; [reflexivity|].
  split; [reflexivity | discriminate].
Qed.

(** The normal of a vertex that is not of length one is not reproduced: at
    the corner (0,0) of a triangle whose vertex normals are (0,0,2),
    [normalAt], and [intersectionInfo] on a smoothed mesh with it, return
    (0,0,1). *)
Lemma renormalization_changes_a_vertex_normal :
  exists a b c info,
    corners (_tfVerts Scene32.stretched) (mkTriangleI 0 1 2) = Returns (a, b, c)
    /\ normal a = Vec3 zero zero (Scene32.f32 2 0)
    /\ normalAt Scene32.stretched 0 zero zero = Returns (Vec3 zero zero one)
    /\ _smoothed Scene32.stretched = true
    /\ isect_id0 (data_isect Scene32.noHit) = 0%Z
    /\ isect_u (data_isect Scene32.noHit) = zero
    /\ isect_v (data_isect Scene32.noHit) = zero
    /\ intersectionInfo Scene32.stretched Scene32.noHit = Returns info
    /\ info_Ns info = Vec3 zero zero one
    /\ Vec3 zero zero one <> normal a.
Proof.
  do 4 eexists.
  split; [reflexivity|]. split; [reflexivity|]. split; [reflexivity|].
  split; [reflexivity|]. split; [reflexivity|]. split; [reflexivity|].
  split; [reflexivity|]. split; [reflexivity|]. split; [reflexivity|].
  discriminate.
Qed.

(** In single precision [tangentSpace] is decided by the rounded determinant
    and returns the rounded quotients.  With the texture coordinates (0,0),
    (4097,4098), (4096,4097) the differences are exact and their determinant
    is 1, but 4097*4097 rounds to 4096*4098, the computed determinant is 0,
    and no frame is returned.  With (0,0), (4097,8396801), (2,4099) the
    determinant is 1 again, the computed one is 2, and the frame returned is
    half the solution: [s1 T + t1 B] is 1/2 in its first component where the
    system asks for the first component of [q1], which is 1. *)
Lemma tangentSpace_misses_the_system_in_single_precision :
  (exists a b c,
      corners (_tfVerts Scene32.cancelling) (mkTriangleI 0 1 2) = Returns (a, b, c)
      /\ (to_R (fsub (ux (uv b)) (ux (uv a))) * to_R (fsub (uy (uv c)) (uy (uv a)))
          - to_R (fsub (ux (uv c)) (ux (uv a))) * to_R (fsub (uy (uv b)) (uy (uv a)))
          = 1)%R
      /\ tangentSpace Scene32.cancelling Scene32.noHit = Returns None)
  /\ (exists a b c T B,
         corners (_tfVerts Scene32.doubling) (mkTriangleI 0 1 2) = Returns (a, b, c)
         /\ (to_R (fsub (ux (uv b)) (ux (uv a))) * to_R (fsub (uy (uv c)) (uy (uv a)))
             - to_R (fsub (ux (uv c)) (ux (uv a))) * to_R (fsub (uy (uv b)) (uy (uv a)))
             = 1)%R
         /\ tangentSpace Scene32.doubling Scene32.noHit = Returns (Some (T, B))
         /\ (to_R (fsub (ux (uv b)) (ux (uv a))) * to_R (vx T)
             + to_R (fsub (uy (uv b)) (uy (uv a))) * to_R (vx B)
             = 1 / 2)%R
         /\ to_R (vx (vsub (pos b) (pos a))) = 1%R).
Proof.
  split.
  - do 3 eexists. split; [reflexivity|]. split; [| reflexivity].
    repeat match goal with
           | |- context [to_R ?x] =>
               let v := eval vm_compute in x in
               let r := eval cbv beta iota zeta delta [to_R Z.leb Z.compare]
                        in (to_R v) in
               change (to_R x) with r
           end.
    repeat match goal with
           | |- context [IZR ?z] =>
               let z' := eval vm_compute in z in progress change z with z'
           end.
    lra.
  - do 5 eexists. split; [reflexivity|].
    split; [| split; [reflexivity|]].
    all: repeat match goal with
           | |- context [to_R ?x] =>
               let v := eval vm_compute in x in
               let r := eval cbv beta iota zeta delta [to_R Z.leb Z.compare]
                        in (to_R v) in
               change (to_R x) with r
           end.
    all: repeat match goal with
           | |- context [IZR ?z] =>
               let z' := eval vm_compute in z in progress change z with z'
           end.
    + lra.
    + split; lra.
Qed.

(** *** The theorems at concrete inputs *)

Lemma sampleInboundDirection_cosine_guard_on_square :
  _triSampler Scene32.squareReady = Some (mkDistribution1D [half; half])
  /\ corners (_tfVerts Scene32.squareReady) (mkTriangleI 0 1 2)
     = Returns (Scene32.vertex 0 0, Scene32.vertex 1 0, Scene32.vertex 0 1)
  /\ exists sample',
       sampleInboundDirection Scene32.squareReady Scene32.sample0
       = Returns (true, sample')
       /\ sample_d sample' = Scene32.down
       /\ sample_pdf sample' = one.
Proof.
  split; [reflexivity|]. split; [reflexivity|].
  destruct (sampleInboundDirection_cosine_guard
              Scene32.squareReady Scene32.sample0
              (mkDistribution1D [half; half]) (mkTriangleI 0 1 2)
              (Scene32.vertex 0 0) (Scene32.vertex 1 0) (Scene32.vertex 0 1)
              eq_refl eq_refl eq_refl)
    as (sample' & Hrun & _ & Hd & _ & Hpdf).
  exists sample'. split; [exact Hrun|]. split; [exact Hd | exact Hpdf].
Defined.

Lemma intersect_closer_hit_on_square :
  _intersector Scene32.squareReady <> None
  /\ intersect Scene32.squareReady Scene32.ray0 Scene32.noHit
     = Returns (true, setFarT Scene32.ray0 one, Scene32.hit0).
Proof.
  split; [discriminate|].
  exact (eq_trans (intersect_closer_hit Scene32.squareReady _ Scene32.ray0
                     Scene32.noHit eq_refl) eq_refl).
Defined.

Lemma intersectionInfo_reconstructs_shading_data_on_square :
  (exists info,
      intersectionInfo Scene32.squareReady Scene32.hit0 = Returns info
      /\ info_uv info = Vec2 (Scene32.f32 1 (-2)) (Scene32.f32 1 (-2)))
  /\ uvAt SceneR.square 0 1%R 0%R = Returns (Vec2 1%R 0%R)
  /\ (exists r, uvAt Scene32.squareReady 0 one zero = Returns r
                /\ same_vec2 r (Vec2 one zero))
  /\ (exists n, normalAt Scene32.squareReady 0 one zero = Returns n
                /\ same_vec3 n (normal (Scene32.vertex 1 0))).
Proof.
  split; [| split; [| split]].
  - eexists. split.
    + exact (proj1 intersectionInfo_reconstructs_shading_data _ _ _
               Scene32.squareReady Scene32.hit0 (mkTriangleI 0 1 2)
               (Scene32.vertex 0 0) (Scene32.vertex 1 0) (Scene32.vertex 0 1)
               eq_refl eq_refl).
    + reflexivity.
  - destruct (proj1 (proj2 intersectionInfo_reconstructs_shading_data) _
                SceneR.square 0%Z (mkTriangleI 0 1 2)
                (SceneR.vertex 0 0) (SceneR.vertex 1 0) (SceneR.vertex 0 1)
                eq_refl eq_refl) as (_ & H & _).
    exact H.
  - destruct (proj1 (proj2 (proj2 intersectionInfo_reconstructs_shading_data)) _
                Scene32.squareReady 0%Z (mkTriangleI 0 1 2)
                (Scene32.vertex 0 0) (Scene32.vertex 1 0) (Scene32.vertex 0 1)
                eq_refl eq_refl eq_refl eq_refl)
      as ((r0 & r1 & r2 & _ & _ & H1 & S1 & _) & _).
    exists r1. split; [exact H1 | exact S1].
  - destruct (proj2 (proj2 (proj2 (proj2 intersectionInfo_reconstructs_shading_data))) _
                Scene32.squareReady 0%Z (mkTriangleI 0 1 2)
                (Scene32.vertex 0 0) (Scene32.vertex 1 0) (Scene32.vertex 0 1)
                eq_refl eq_refl eq_refl eq_refl)
      as (_ & Hb & _).
    exact (Hb eq_refl).
Defined.

Lemma pdf_operations_only_guard_the_cosine_on_square :
  _triSampler Scene32.squareReady = Some (mkDistribution1D [half; half])
  /\ (exists sample',
         sampleInboundDirection Scene32.squareReady Scene32.sample0
         = Returns (true, sample')
         /\ sample_pdf sample' = one)
  /\ inboundPdf Scene32.squareReady Scene32.hit0 Scene32.above Scene32.up
     = Returns one.
Proof.
  split; [reflexivity|].
  destruct (pdf_operations_only_guard_the_cosine
              Scene32.squareReady Scene32.sample0
              (mkDistribution1D [half; half]) (mkTriangleI 0 1 2)
              (Scene32.vertex 0 0) (Scene32.vertex 1 0) (Scene32.vertex 0 1)
              eq_refl eq_refl eq_refl)
    as (_ & Haccept & Hpdf).
  split.
  - destruct (Haccept eq_refl) as (sample' & Hrun & Hp).
    exists sample'. split; [exact Hrun | exact Hp].
  - exact (eq_trans (Hpdf Scene32.hit0 Scene32.above Scene32.up) eq_refl).
Defined.

Lemma square_triangles_are_valid :
  Forall (validTriangle 4) [mkTriangleI 0 1 2; mkTriangleI 1 3 2].
Proof. repeat constructor; simpl; lia. Defined.

Lemma totalArea_is_sum_of_triangle_areas_on_square :
  (exists m', prepareForRender Scene32.square = Returns m'
              /\ _totalArea m' = one)
  /\ (exists m', makeSamplable Scene32.squareReady = Returns m'
                 /\ _totalArea m' = one
                 /\ _triSampler m' = Some (mkDistribution1D [half; half])).
Proof.
  split.
  - destruct (proj1 (totalArea_is_sum_of_triangle_areas Scene32.square)
                square_triangles_are_valid)
      as (m' & areas & Hrun & Htf & Htris & Hareas & Htotal).
    exists m'. split; [exact Hrun|].
    rewrite Htf, Htris in Hareas.
    assert (Hc : triangleAreas (map (worldVertex Scene32.square) (_verts Scene32.square))
                               (_tris Scene32.square) = Returns [half; half])
      by reflexivity.
    rewrite Hc in Hareas. injection Hareas as <-.
    rewrite Htotal. reflexivity.
  - destruct (proj2 (totalArea_is_sum_of_triangle_areas Scene32.squareReady)
                square_triangles_are_valid)
      as (m' & areas & Hrun & Htf & Htris & Hareas & Htotal & Hsampler & _).
    exists m'. split; [exact Hrun|].
    rewrite Htf, Htris in Hareas.
    assert (Hc : triangleAreas (_tfVerts Scene32.squareReady)
                               (_tris Scene32.squareReady) = Returns [half; half])
      by reflexivity.
    rewrite Hc in Hareas. injection Hareas as <-.
    split; [rewrite Htotal; reflexivity | exact Hsampler].
Defined.

Lemma one_tenthousandth_is_positive : (Rabs (1 * 1 - 0 * 0) < 1 / 10000 -> False)%R.
Proof.
  replace (1 * 1 - 0 * 0)%R with 1%R by ring. rewrite Rabs_R1. lra.
Defined.

Lemma tangentSpace_solves_or_fails_on_square :
  tangentSpace Scene32.squareReady Scene32.hit0
  = Returns (Some (Vec3 one zero zero, Vec3 zero one zero))
  /\ tangentSpace SceneR.square SceneR.hit0 <> Returns None.
Proof.
  split.
  - exact (eq_trans (proj1 tangentSpace_solves_or_fails _ _ _
                       Scene32.squareReady Scene32.hit0 (mkTriangleI 0 1 2)
                       (Scene32.vertex 0 0) (Scene32.vertex 1 0) (Scene32.vertex 0 1)
                       eq_refl eq_refl) eq_refl).
  - intros Hnone.
    destruct (proj2 tangentSpace_solves_or_fails _ SceneR.square SceneR.hit0
                (mkTriangleI 0 1 2)
                (SceneR.vertex 0 0) (SceneR.vertex 1 0) (SceneR.vertex 0 1)
                eq_refl eq_refl) as (Hiff & _).
    apply Hiff in Hnone. simpl in Hnone.
    replace (1 - 0)%R with 1%R in Hnone by ring.
    replace (0 - 0)%R with 0%R in Hnone by ring.
    exact (one_tenthousandth_is_positive Hnone).
Defined.

Lemma intersect_stays_in_interval_on_square :
  (exists ray' data',
      intersect Scene32.squareReady Scene32.ray0 Scene32.noHit
      = Returns (true, ray', data')
      /\ fleb (nearT Scene32.ray0) (farT ray') = true
      /\ fltb (farT ray') (farT Scene32.ray0) = true)
  /\ (exists fs,
         farBounds [Scene32.squareReady; Scene32.squareReady] Scene32.ray0 Scene32.noHit
         = Returns fs
         /\ nonIncreasing fs
         /\ StronglySorted notAbove fs).
Proof.
  split.
  - exists (setFarT Scene32.ray0 one), Scene32.hit0.
    assert (Hrun : intersect Scene32.squareReady Scene32.ray0 Scene32.noHit
                   = Returns (true, setFarT Scene32.ray0 one, Scene32.hit0))
      by reflexivity.
    split; [exact Hrun|].
    destruct (proj1 intersect_stays_in_interval_and_shrinks_far_bound _ _ _
                Scene32.squareReady _ Scene32.ray0 (setFarT Scene32.ray0 one)
                Scene32.noHit Scene32.hit0 eq_refl) as (Hnear & Hfar & _).
    + intros h Hh.
      match type of Hh with
      | ?answer = Some h =>
          assert (Hc : answer = Some (mkOracleHit one Scene32.down (Scene32.f32 1 (-2))
                                                  (Scene32.f32 1 (-2)) 0 0))
            by reflexivity;
          rewrite Hc in Hh
      end.
      injection Hh as <-. reflexivity.
    + exact Hrun.
    + split; [exact Hnear | exact Hfar].
  - destruct (proj1 (proj2 intersect_stays_in_interval_and_shrinks_far_bound) _ _ _
                [Scene32.squareReady; Scene32.squareReady] Scene32.ray0 Scene32.noHit)
      as (fs & Hrun & _ & Hmono).
    + repeat constructor; discriminate.
    + exists fs. split; [exact Hrun|]. split; [exact Hmono|].
      exact (proj2 (proj2 intersect_stays_in_interval_and_shrinks_far_bound) _
               [Scene32.squareReady; Scene32.squareReady] Scene32.ray0 Scene32.noHit
               fs Hrun).
Defined.

Lemma queries_do_not_check_the_lifecycle_on_square :
  sampleInboundDirection Scene32.square Scene32.sample0 = Undefined
  /\ intersect Scene32.square Scene32.ray0 Scene32.noHit = Undefined.
Proof.
  destruct (queries_do_not_check_the_lifecycle
              Scene32.square Scene32.sample0 Scene32.ray0 Scene32.noHit)
    as (_ & Hsample & Hintersect & _).
  split; [exact (proj1 (Hsample eq_refl)) | exact (Hintersect eq_refl)].
Defined.

(** *** Further properties at concrete inputs *)

Lemma inboundPdf_is_sampled_pdf_for_equal_normals_on_square :
  normalized (isect_Ng (data_isect Scene32.hitUp)) = Scene32.up
  /\ exists accepted sample',
       sampleInboundDirection Scene32.squareReady Scene32.sample0
       = Returns (accepted, sample')
       /\ accepted = true
       /\ inboundPdf Scene32.squareReady Scene32.hitUp Scene32.above (sample_d sample')
          = Returns (sample_pdf sample').
Proof.
  split; [reflexivity|].
  destruct (inboundPdf_is_sampled_pdf_for_equal_normals
              Scene32.squareReady Scene32.sample0
              (mkDistribution1D [half; half]) (mkTriangleI 0 1 2)
              (Scene32.vertex 0 0) (Scene32.vertex 1 0) (Scene32.vertex 0 1)
              Scene32.hitUp eq_refl eq_refl eq_refl eq_refl eq_refl)
    as (accepted & sample' & Hrun & Hpdf).
  assert (Hacc : accepted = true).
  { assert (Hc : sampleInboundDirection Scene32.squareReady Scene32.sample0
                 = Returns (true, mkLightSample (C := Scene32.collaborators)
                                    [] Scene32.above Scene32.down one one))
      by reflexivity.
    rewrite Hc in Hrun. injection Hrun as <- _. reflexivity. }
  exists accepted, sample'. split; [exact Hrun|]. split; [exact Hacc | exact (Hpdf Hacc)].
Defined.

Lemma first_triangle_is_drawn :
  at_index (_tris SceneR.squareSamplable)
           (@warp R SceneR.collaborators (mkDistribution1D [1 / 2; 1 / 2]%R)
                  (fst (@next1D R SceneR.collaborators (sampler SceneR.sample0))))
  = Returns (mkTriangleI 0 1 2).
Proof.
  cbn [warp SceneR.collaborators Reference.collaborators Reference.cdfWarp
       Reference.walk Reference.total weights next1D Reference.listNext1D
       sampler SceneR.sample0 fst fadd fmul fltb fzero real_scalar].
  assert (H : Rltb (1 / 4 * (0 + 1 / 2 + 1 / 2)) (0 + 1 / 2) = true)
    by (apply Rltb_true; lra).
  rewrite H. reflexivity.
Defined.

Lemma inboundPdf_is_negated_for_the_oracle_normal_on_square :
  exists accepted sample',
    sampleInboundDirection SceneR.squareSamplable SceneR.sample0
    = Returns (accepted, sample')
    /\ (accepted = true ->
        inboundPdf SceneR.squareSamplable SceneR.hitDrawn
                   (sample_p SceneR.sample0) (sample_d sample')
        = Returns (- sample_pdf sample')%R).
Proof.
  exact (inboundPdf_is_negated_for_the_oracle_normal
           SceneR.squareSamplable SceneR.sample0
           (mkDistribution1D [1 / 2; 1 / 2]%R) (mkTriangleI 0 1 2)
           (SceneR.vertex 0 0) (SceneR.vertex 1 0) (SceneR.vertex 0 1)
           SceneR.hitDrawn eq_refl first_triangle_is_drawn eq_refl eq_refl eq_refl).
Defined.

Lemma hitBackside_after_intersect_on_square :
  hitBackside Scene32.hit0 = true /\ data_primitive Scene32.hit0 = Some Scene32.squareReady.
Proof.
  destruct (hitBackside_after_intersect
              Scene32.squareReady Scene32.ray0 (setFarT Scene32.ray0 one)
              Scene32.noHit Scene32.hit0 (proj2 (proj2 scenes_are_reachable)))
    as (Hback & Hprim & _).
  split; [exact (eq_trans Hback eq_refl) | exact Hprim].
Defined.

Lemma lifecycle_transitions_on_square :
  (exists prepared,
      prepareForRender Scene32.square = Returns prepared
      /\ prepareForRender prepared = Returns prepared)
  /\ isSamplable Scene32.squareReady = true.
Proof.
  split.
  - destruct (prepareForRender Scene32.square) as [prepared| |] eqn:Hprep.
    + exists prepared. split; [reflexivity|].
      exact (proj1 (proj1 (lifecycle_transitions Scene32.square prepared) Hprep)).
    + exfalso. assert (Hc : prepareForRender Scene32.square <> Aborts) by discriminate.
      exact (Hc Hprep).
    + exfalso. assert (Hc : prepareForRender Scene32.square <> Undefined) by discriminate.
      exact (Hc Hprep).
  - reflexivity.
Defined.

(** The guard of [tangentSpace] compares in double precision: the float
    nearest to 1e-4 lies below the double 1e-4, so a determinant of exactly
    that magnitude counts as "below 1e-4", though as a float it is not
    below itself. *)
Lemma determinant_guard_compares_in_double :
  flt_1em4 (fabs Scene32.f1em4) = true
  /\ flt_1em4 (fabs (fneg Scene32.f1em4)) = true
  /\ fltb (fabs Scene32.f1em4) Scene32.f1em4 = false
  /\ flt_1em4 (fabs (SFsucc prec emax Scene32.f1em4)) = false.
Proof. repeat split. Qed.

(** * Further properties of the mesh *)

(** ** The lifecycle, for every arithmetic *)

Section Lifecycle.
Context {F : Type} {SF : Scalar F} {C : Collaborators F}.
Local Open Scope scalar_scope.
Local Open Scope vec_scope.
Local Open Scope outcome_scope.

Lemma at_index_nil (A : Type) (i : Z) : at_index (@nil A) i = Undefined.
Proof.
  unfold at_index. destruct (i <? 0)%Z; [reflexivity|].
  destruct (Z.to_nat i); reflexivity.
Qed.

Lemma corners_nil (t : TriangleI) : corners (@nil (Vertex F)) t = Undefined.
Proof. unfold corners. rewrite at_index_nil. reflexivity. Qed.

(** A lookup of a triangle followed by a lookup of its corners in an empty
    vertex array has no defined behaviour, whatever comes after. *)
Lemma triangle_in_empty_cache (A : Type) (l : list TriangleI) (i : Z)
    (k : Vertex F * Vertex F * Vertex F -> outcome A) :
  (t <- at_index l i ;; r <- corners [] t ;; k r) = Undefined.
Proof.
  destruct (at_index l i) as [t| |] eqn:Ht; simpl.
  - rewrite corners_nil. reflexivity.
  - exfalso. exact (at_index_never_aborts _ l i Ht).
  - reflexivity.
Qed.

(** [cleanupAfterRender] keeps the sampler and the cached area, so the mesh
    still reports itself samplable and still answers [area()], but it empties
    the transformed vertices the sampling and shading functions index: on the
    cleaned-up mesh every one of them, for every argument, reads past the end
    of an empty vector or through a null intersector. *)
Theorem queries_after_cleanup_are_undefined
    (m : TriangleMesh F) (sample : LightSample F) (ray : Ray F)
    (data : IntersectionTemporary F) :
  isSamplable (cleanupAfterRender m) = isSamplable m
  /\ area (cleanupAfterRender m) = area m
  /\ sampleInboundDirection (cleanupAfterRender m) sample = Undefined
  /\ sampleOutboundDirection (cleanupAfterRender m) sample = Undefined
  /\ intersectionInfo (cleanupAfterRender m) data = Undefined
  /\ tangentSpace (cleanupAfterRender m) data = Undefined
  /\ intersect (cleanupAfterRender m) ray data = Undefined
  /\ occluded (cleanupAfterRender m) ray = Undefined.
Proof.
  split; [reflexivity|]. split; [reflexivity|].
  split.
  { unfold sampleInboundDirection. destruct (next1D (sampler sample)) as [u r1].
    cbn [cleanupAfterRender _triSampler _tris _tfVerts].
    destruct (_triSampler m) as [d|]; [| reflexivity].
    apply triangle_in_empty_cache. }
  split.
  { unfold sampleOutboundDirection. destruct (next1D (sampler sample)) as [u r1].
    cbn [cleanupAfterRender _triSampler _tris _tfVerts].
    destruct (_triSampler m) as [d|]; [| reflexivity].
    apply triangle_in_empty_cache. }
  split.
  { unfold intersectionInfo, normalAt, uvAt.
    cbn [cleanupAfterRender _smoothed _tris _tfVerts].
    destruct (_smoothed m).
    - rewrite triangle_in_empty_cache. reflexivity.
    - rewrite bind_Returns. rewrite triangle_in_empty_cache. reflexivity. }
  split.
  { unfold tangentSpace. cbn [cleanupAfterRender _tris _tfVerts].
    apply triangle_in_empty_cache. }
  split; reflexivity.
Qed.

(** *** Empty inputs *)

(** A mesh without triangles: [prepareForRender] and [makeSamplable] return,
    with a total area of zero and a distribution over no weights; the mesh
    then reports itself samplable, yet every sample request indexes the empty
    triangle array. *)
Theorem mesh_without_triangles (m : TriangleMesh F) (sample : LightSample F) :
  _tris m = [] ->
  (exists m', prepareForRender m = Returns m' /\ _totalArea m' = fzero)
  /\ exists m',
       makeSamplable m = Returns m'
       /\ _totalArea m' = fzero
       /\ _triSampler m' = Some (mkDistribution1D [])
       /\ isSamplable m' = true
       /\ sampleInboundDirection m' sample = Undefined
       /\ sampleOutboundDirection m' sample = Undefined.
Proof.
  intros Hempty. split.
  - unfold prepareForRender. rewrite Hempty. simpl. eexists. split; reflexivity.
  - unfold makeSamplable. rewrite Hempty. simpl. eexists.
    split; [reflexivity|]. split; [reflexivity|]. split; [reflexivity|].
    split; [reflexivity|].
    unfold sampleInboundDirection, sampleOutboundDirection.
    destruct (next1D (sampler sample)) as [u r1].
    cbn [_triSampler _tris]. rewrite at_index_nil. split; reflexivity.
Qed.

(** [makeSamplable] reads the transformed vertices, which only
    [prepareForRender] fills: on a mesh with at least one triangle whose
    transformed vertices are absent (as constructed, or after
    [cleanupAfterRender]) it reads past the end of an empty vector. *)
Theorem makeSamplable_reads_the_transformed_vertices (m : TriangleMesh F) :
  _tris m <> [] ->
  _tfVerts m = [] ->
  makeSamplable m = Undefined
  /\ makeSamplable (cleanupAfterRender m) = Undefined.
Proof.
  intros Htris Htf. unfold makeSamplable.
  cbn [cleanupAfterRender _tfVerts _tris]. rewrite Htf.
  destruct (_tris m) as [|t rest]; [contradiction|].
  simpl. rewrite corners_nil. split; reflexivity.
Qed.

(** *** How the lifecycle calls compose *)

Lemma accumulateArea_areas (tfVerts : list (Vertex F)) (tris0 : list TriangleI) :
  forall (acc total : F),
    accumulateArea tfVerts tris0 acc = Returns total ->
    exists areas, triangleAreas tfVerts tris0 = Returns areas
                  /\ total = fold_left fadd areas acc
                  /\ List.length areas = List.length tris0.
Proof.
  induction tris0 as [|t rest IH]; simpl; intros acc total H.
  - injection H as <-. exists []. repeat split.
  - destruct (corners tfVerts t) as [[[a b] c]| |]; simpl in *; try discriminate.
    destruct (IH _ _ H) as (areas & Ha & Ht & Hl).
    rewrite Ha. simpl. eexists. split; [reflexivity|].
    split; [exact Ht | simpl; rewrite Hl; reflexivity].
Qed.

Lemma collectAreas_areas (tfVerts : list (Vertex F)) (tris0 : list TriangleI) :
  forall (acc total : F) (areas : list F),
    collectAreas tfVerts tris0 acc = Returns (areas, total) ->
    triangleAreas tfVerts tris0 = Returns areas
    /\ total = fold_left fadd areas acc
    /\ List.length areas = List.length tris0.
Proof.
  induction tris0 as [|t rest IH]; simpl; intros acc total areas H.
  - injection H as <- <-. repeat split.
  - destruct (corners tfVerts t) as [[[a b] c]| |]; simpl in *; try discriminate.
    destruct (collectAreas tfVerts rest _) as [[rs tot]| |] eqn:Hc;
      simpl in H; try discriminate.
    injection H as <- <-.
    destruct (IH _ _ _ Hc) as (Ha & Ht & Hl).
    rewrite Ha. simpl. split; [reflexivity|].
    split; [exact Ht | rewrite Hl; reflexivity].
Qed.

Lemma makeSamplable_areas_of_prepared (m m' : TriangleMesh F) :
  prepareForRender m = Returns m' ->
  exists areas,
    makeSamplable m' =
      Returns {| _transform := _transform m'; _dirty := _dirty m';
                 _smoothed := _smoothed m'; _verts := _verts m';
                 _tfVerts := _tfVerts m'; _tris := _tris m';
                 _triSampler := Some (mkDistribution1D areas);
                 _totalArea := _totalArea m'; _bounds := _bounds m';
                 _geom := _geom m'; _intersector := _intersector m' |}
    /\ List.length areas = List.length (_tris m')
    /\ triangleAreas (_tfVerts m') (_tris m') = Returns areas.
Proof.
  unfold prepareForRender. intros H.
  destruct (accumulateArea _ (_tris m) fzero) as [total| |] eqn:Ha;
    simpl in H; try discriminate.
  injection H as <-.
  destruct (accumulateArea_areas _ _ _ _ Ha) as (areas & Hareas & Htotal & Hlen).
  exists areas. unfold makeSamplable. cbn [_tfVerts _tris].
  rewrite (collectAreas_sum _ _ _ fzero Hareas). simpl.
  rewrite Htotal. repeat split; assumption.
Qed.

(** After [prepareForRender], [makeSamplable] returns; it changes nothing but
    the sampler: [area()] is what it was, bit for bit, and the distribution
    gets one weight per triangle. *)
Theorem makeSamplable_keeps_the_prepared_area (m m' : TriangleMesh F) :
  prepareForRender m = Returns m' ->
  exists areas,
    makeSamplable m' =
      Returns {| _transform := _transform m'; _dirty := _dirty m';
                 _smoothed := _smoothed m'; _verts := _verts m';
                 _tfVerts := _tfVerts m'; _tris := _tris m';
                 _triSampler := Some (mkDistribution1D areas);
                 _totalArea := _totalArea m'; _bounds := _bounds m';
                 _geom := _geom m'; _intersector := _intersector m' |}
    /\ List.length areas = List.length (_tris m')
    /\ triangleAreas (_tfVerts m') (_tris m') = Returns areas.
Proof. exact (makeSamplable_areas_of_prepared m m'). Qed.

(** [cleanupAfterRender] followed by [prepareForRender] is a round trip:
    on a mesh that was prepared, and on one that was prepared and then made
    samplable, it gives the mesh back, sampler and total area included. *)
Theorem prepare_after_cleanup_restores_the_mesh (m m' m'' : TriangleMesh F) :
  prepareForRender m = Returns m' ->
  prepareForRender (cleanupAfterRender m') = Returns m'
  /\ (makeSamplable m' = Returns m'' ->
      prepareForRender (cleanupAfterRender m'') = Returns m'').
Proof.
  intros Hprep.
  destruct (makeSamplable_areas_of_prepared m m' Hprep) as (areas & Hsam & _).
  unfold prepareForRender in Hprep.
  destruct (accumulateArea _ (_tris m) fzero) as [total| |] eqn:Ha;
    simpl in Hprep; try discriminate.
  injection Hprep as <-. split.
  - unfold prepareForRender.
    cbn [cleanupAfterRender _transform _dirty _smoothed _verts _tris _triSampler].
    rewrite Ha. reflexivity.
  - rewrite Hsam. intros Hm''. injection Hm'' as <-.
    unfold prepareForRender.
    cbn [cleanupAfterRender _transform _dirty _smoothed _verts _tris _triSampler
         _totalArea _bounds _geom _intersector _tfVerts].
    rewrite Ha. reflexivity.
Qed.

(** *** What the oracle is given *)

Lemma triangleBuffer_length (tris0 : list TriangleI) :
  forall k : Z, List.length (triangleBuffer tris0 k) = List.length tris0.
Proof.
  induction tris0 as [|t rest IH]; simpl; intros k; [reflexivity|].
  rewrite IH. reflexivity.
Qed.

Lemma triangleBuffer_nth (tris0 : list TriangleI) :
  forall (k : Z) (n : nat),
    nth_error (triangleBuffer tris0 k) n
    = match nth_error tris0 n with
      | Some t => Some (mkRTCTriangle (v0 t) (v1 t) (v2 t) (k + Z.of_nat n) 0)
      | None => None
      end.
Proof.
  induction tris0 as [|t rest IH]; intros k n.
  - destruct n; reflexivity.
  - destruct n as [|n].
    + simpl. rewrite Z.add_0_r. reflexivity.
    + cbn [triangleBuffer nth_error]. rewrite IH.
      replace (k + 1 + Z.of_nat n)%Z with (k + Z.of_nat (S n))%Z by lia.
      reflexivity.
Qed.

(** The geometry [prepareForRender] builds: the positions of the transformed
    vertices, and one oracle triangle per mesh triangle, in order, carrying
    the three vertex indices, its own index as id and 0 as secondary id.  The
    id of every triangle the oracle was given therefore is a valid index into
    [_tris], of the triangle with the same three vertex indices, which is
    what [intersectionInfo] and [tangentSpace] use it for. *)
Theorem oracle_triangle_ids_index_the_triangles (m m' : TriangleMesh F) :
  prepareForRender m = Returns m' ->
  exists ts,
    _geom m' = Some (rtcBuild ts (map (@pos F) (_tfVerts m')))
    /\ _intersector m'
       = Some (rtcQueryIntersector1 (rtcBuild ts (map (@pos F) (_tfVerts m'))))
    /\ List.length ts = List.length (_tris m')
    /\ (forall (i : Z) (t : TriangleI),
          at_index (_tris m') i = Returns t ->
          at_index ts i = Returns (mkRTCTriangle (v0 t) (v1 t) (v2 t) i 0))
    /\ (forall e : RTCTriangle,
          In e ts ->
          rtc_id1 e = 0%Z
          /\ exists t, at_index (_tris m') (rtc_id0 e) = Returns t
                       /\ v0 t = rtc_v0 e /\ v1 t = rtc_v1 e /\ v2 t = rtc_v2 e).
Proof.
  unfold prepareForRender. intros H.
  destruct (accumulateArea _ (_tris m) fzero) as [total| |] eqn:Ha;
    simpl in H; try discriminate.
  injection H as <-. cbn [_geom _intersector _tfVerts _tris].
  exists (triangleBuffer (_tris m) 0).
  split; [reflexivity|]. split; [reflexivity|].
  split; [apply triangleBuffer_length|].
  split.
  - intros i t. unfold at_index.
    destruct (i <? 0)%Z eqn:Hneg; [discriminate|].
    apply Z.ltb_ge in Hneg.
    rewrite triangleBuffer_nth.
    destruct (nth_error (_tris m) (Z.to_nat i)) as [t'|]; [| discriminate].
    intros Ht. injection Ht as ->.
    rewrite Z.add_0_l, Z2Nat.id by exact Hneg. reflexivity.
  - intros e He. apply In_nth_error in He. destruct He as [n Hn].
    rewrite triangleBuffer_nth in Hn.
    destruct (nth_error (_tris m) n) as [t|] eqn:Ht; [| discriminate].
    injection Hn as <-. cbn [rtc_id0 rtc_id1 rtc_v0 rtc_v1 rtc_v2].
    split; [reflexivity|]. exists t.
    split; [| repeat split].
    unfold at_index. rewrite ?Z.add_0_l.
    destruct (Z.of_nat n <? 0)%Z eqn:Hneg; [apply Z.ltb_lt in Hneg; lia|].
    rewrite Nat2Z.id, Ht. reflexivity.
Qed.

(** *** Invariants of the lifecycle *)

Lemma collectAreas_nil (tris0 : list TriangleI) (acc : F) (r : list F * F) :
  collectAreas [] tris0 acc = Returns r -> tris0 = [] /\ r = ([], acc).
Proof.
  destruct tris0 as [|t rest]; simpl.
  - intros H. injection H as <-. split; reflexivity.
  - rewrite corners_nil. discriminate.
Qed.

(** Every mesh obtained from a constructor through [prepareForRender],
    [makeSamplable], [cleanupAfterRender], [setSmoothed], [markDirty] and
    [clone] is consistent: with an intersector, its transformed vertices are
    current and [area()] is the sum of its triangle areas; with a sampler,
    the sampler's weights are the areas of its triangles and sum to
    [area()]. *)
Theorem reachable_meshes_are_consistent (m : TriangleMesh F) :
  reachable m -> consistent m.
Proof.
  induction 1 as [tr g box vs ts sm | tr g box | g m Hm IH | m m' Hm IH Hstep].
  - unfold consistent; simpl. split; [tauto|]. split; [left; reflexivity|].
    split; [intros H; contradiction H; reflexivity | intros d Hd; discriminate].
  - unfold consistent; simpl. split; [tauto|]. split; [left; reflexivity|].
    split; [intros H; contradiction H; reflexivity | intros d Hd; discriminate].
  - unfold consistent; simpl. split; [tauto|]. split; [left; reflexivity|].
    split; [intros H; contradiction H; reflexivity | intros d Hd; discriminate].
  - destruct IH as (Hg & Htf & Hint & Hsam).
    destruct Hstep as [m m' H | m m' H | m | m v | m].
    + unfold prepareForRender in H.
      destruct (accumulateArea _ (_tris m) fzero) as [total| |] eqn:Ha;
        simpl in H; try discriminate.
      injection H as <-.
      destruct (accumulateArea_areas _ _ _ _ Ha) as (areas & Hareas & Htotal & _).
      unfold consistent.
      cbn [_geom _intersector _tfVerts _verts _tris _totalArea _triSampler].
      split; [split; discriminate|].
      split; [right; reflexivity|].
      split.
      * intros _. split; [reflexivity|]. exists areas.
        split; [exact Hareas | exact Htotal].
      * intros d Hd. destruct (Hsam d Hd) as [Hw _].
        assert (E : Returns areas = Returns (weights d))
          by (rewrite <- Hareas; exact Hw).
        injection E as E. split; [exact Hw|]. rewrite Htotal, E. reflexivity.
    + unfold makeSamplable in H.
      destruct (collectAreas (_tfVerts m) (_tris m) fzero) as [[areas total]| |] eqn:Hc;
        simpl in H; try discriminate.
      injection H as <-.
      unfold consistent.
      cbn [_geom _intersector _tfVerts _verts _tris _totalArea _triSampler].
      split; [exact Hg|]. split; [exact Htf|].
      split.
      * intros Hi. destruct (Hint Hi) as (Hcur & _). split; [exact Hcur|].
        destruct (collectAreas_areas _ _ _ _ _ Hc) as (Ha & Ht & _).
        exists areas. split; [exact Ha | exact Ht].
      * intros d Hd. injection Hd as <-. cbn [weights].
        destruct Htf as [Hnil | Hcur].
        -- rewrite Hnil in Hc. destruct (collectAreas_nil _ _ _ Hc) as [Hts Hr].
           injection Hr as -> ->.
           change (triangleAreas (map (worldVertex m) (_verts m)) (_tris m) = Returns []
                   /\ fzero = sumOf []).
           rewrite Hts. split; reflexivity.
        -- rewrite Hcur in Hc.
           destruct (collectAreas_areas _ _ _ _ _ Hc) as (Ha & Ht & _).
           split; [exact Ha | exact Ht].
    + unfold consistent.
      cbn [cleanupAfterRender _geom _intersector _tfVerts _verts _tris _totalArea
           _triSampler].
      split; [tauto|]. split; [left; reflexivity|].
      split; [intros H; contradiction H; reflexivity | exact Hsam].
    + exact (conj Hg (conj Htf (conj Hint Hsam))).
    + exact (conj Hg (conj Htf (conj Hint Hsam))).
Qed.

(** No sequence of these calls changes the vertices, the triangles or the
    transform of the mesh, clears its dirty flag, or takes its sampler
    away. *)
Theorem no_call_changes_the_geometry (m m' : TriangleMesh F) :
  clos_refl_trans (TriangleMesh F) step m m' ->
  verts m' = verts m
  /\ tris m' = tris m
  /\ _transform m' = _transform m
  /\ (isDirty m = true -> isDirty m' = true)
  /\ (isSamplable m = true -> isSamplable m' = true).
Proof.
  induction 1 as [m m' Hstep | m | m m1 m2 _ IH1 _ IH2].
  - destruct Hstep as [m m' H | m m' H | m | m v | m].
    + unfold prepareForRender in H.
      destruct (accumulateArea _ (_tris m) fzero) as [total| |];
        simpl in H; try discriminate.
      injection H as <-. repeat split; intros; assumption.
    + unfold makeSamplable in H.
      destruct (collectAreas (_tfVerts m) (_tris m) fzero) as [[areas total]| |];
        simpl in H; try discriminate.
      injection H as <-. repeat split; intros; assumption.
    + repeat split; intros; assumption.
    + repeat split; intros; assumption.
    + repeat split; intros; first [assumption | reflexivity].
  - repeat split; intros; assumption.
  - destruct IH1 as (V1 & T1 & X1 & D1 & S1), IH2 as (V2 & T2 & X2 & D2 & S2).
    split; [rewrite V2; exact V1|]. split; [rewrite T2; exact T1|].
    split; [rewrite X2; exact X1|].
    split; intros H; [exact (D2 (D1 H)) | exact (S2 (S1 H))].
Qed.

(** A clone takes the vertices, the triangles, the smoothing flag and the
    bounds of the original and nothing of its render state: it is dirty, has
    no sampler and no intersector even when the original has both, so the
    ray and sampling queries on it have no defined behaviour until it is
    prepared itself; its [area()] is not the original's but what the
    uninitialized member holds. *)
Theorem clone_shares_no_render_state
    (garbage : F) (m : TriangleMesh F) (sample : LightSample F) (ray : Ray F)
    (data : IntersectionTemporary F) :
  verts (clone garbage m) = verts m
  /\ tris (clone garbage m) = tris m
  /\ smoothed (clone garbage m) = smoothed m
  /\ bounds (clone garbage m) = bounds m
  /\ isDirty (clone garbage m) = true
  /\ isSamplable (clone garbage m) = false
  /\ area (clone garbage m) = Returns garbage
  /\ intersect (clone garbage m) ray data = Undefined
  /\ occluded (clone garbage m) ray = Undefined
  /\ sampleInboundDirection (clone garbage m) sample = Undefined
  /\ sampleOutboundDirection (clone garbage m) sample = Undefined
  /\ (_tris m <> [] -> makeSamplable (clone garbage m) = Undefined).
Proof.
  do 9 (split; [reflexivity|]).
  split; [| split].
  - unfold sampleInboundDirection. destruct (next1D (sampler sample)); reflexivity.
  - unfold sampleOutboundDirection. destruct (next1D (sampler sample)); reflexivity.
  - intros Htris. unfold makeSamplable, clone, copyTriangleMesh. cbn [_tfVerts _tris].
    destruct (_tris m) as [|t rest]; [contradiction|].
    simpl. rewrite corners_nil. reflexivity.
Qed.

End Lifecycle.

(** ** Geometry in exact arithmetic *)

Section ExactGeometry.
Context {C : Collaborators R}.
Local Open Scope R_scope.

(** *** Normals *)

Lemma lengthSq_nonneg (a : Vec3f R) : 0 <= lengthSq a.
Proof. destruct a as [x y z]. unfold lengthSq. simpl. nra. Qed.

Lemma length_positive (a : Vec3f R) : lengthSq a <> 0 -> 0 < length a.
Proof.
  intros Hne. pose proof (lengthSq_nonneg a).
  change (0 < sqrt (lengthSq a)). apply sqrt_lt_R0. lra.
Qed.

Lemma length_squared (a : Vec3f R) : length a * length a = lengthSq a.
Proof.
  change (sqrt (lengthSq a) * sqrt (lengthSq a) = lengthSq a).
  apply sqrt_sqrt. apply lengthSq_nonneg.
Qed.

Lemma lengthSq_normalized (a : Vec3f R) :
  lengthSq a <> 0 -> lengthSq (normalized a) = 1.
Proof.
  intros Hne. pose proof (length_positive a Hne) as Hs.
  pose proof (length_squared a) as Hss.
  unfold normalized. set (s := length a) in *.
  destruct a as [x y z]. unfold lengthSq, vmul in *. simpl in *.
  transitivity ((x * x + y * y + z * z) / (s * s)).
  - field. lra.
  - rewrite Hss. field. exact Hne.
Qed.

Lemma lengthSq_vneg (a : Vec3f R) : lengthSq (vneg a) = lengthSq a.
Proof. destruct a as [x y z]. unfold lengthSq, vneg. simpl. ring. Qed.

Lemma dot_vneg_normalized (a d : Vec3f R) :
  dot (vneg (normalized a)) d = - (1 / length a) * dot a d.
Proof.
  unfold normalized.
  change (1 / length a) with (fdiv fone (length a)).
  generalize (fdiv fone (length a)). intros k.
  destruct a as [x y z], d as [dx dy dz].
  unfold dot, vneg, vmul. simpl. ring.
Qed.

(** The geometric normal [intersectionInfo] stores, whenever it returns. *)
Lemma intersectionInfo_Ng
    (m : TriangleMesh R) (data : IntersectionTemporary R) (info : IntersectionInfo R) :
  intersectionInfo m data = Returns info ->
  info_Ng info = vneg (normalized (isect_Ng (data_isect data)))
  /\ (_smoothed m = false -> info_Ns info = info_Ng info).
Proof.
  unfold intersectionInfo. intros H.
  destruct (_smoothed m).
  - destruct (normalAt m _ _ _) as [ns| |]; simpl in H; try discriminate.
    destruct (uvAt m _ _ _) as [uv'| |]; simpl in H; try discriminate.
    injection H as <-. split; [reflexivity | discriminate].
  - simpl in H.
    destruct (uvAt m _ _ _) as [uv'| |]; simpl in H; try discriminate.
    injection H as <-. split; reflexivity.
Qed.

(** In exact arithmetic the normals [intersectionInfo] reports have length
    one: the geometric normal whenever the oracle's normal is not the zero
    vector, the shading normal of a flat-shaded mesh with it, and the shading
    normal of a smoothed mesh whenever the interpolated vertex normal is not
    the zero vector. *)
Theorem reported_normals_have_unit_length
    (m : TriangleMesh R) (data : IntersectionTemporary R)
    (t : TriangleI) (a b c : Vertex R) :
  at_index (_tris m) (isect_id0 (data_isect data)) = Returns t ->
  corners (_tfVerts m) t = Returns (a, b, c) ->
  lengthSq (isect_Ng (data_isect data)) <> 0 ->
  let u := isect_u (data_isect data) in
  let v := isect_v (data_isect data) in
  let n := vadd (vadd (smul (1 - u - v) (normal a)) (smul u (normal b)))
                (smul v (normal c)) in
  exists info,
    intersectionInfo m data = Returns info
    /\ lengthSq (info_Ng info) = 1
    /\ (_smoothed m = false -> lengthSq (info_Ns info) = 1)
    /\ (_smoothed m = true -> lengthSq n <> 0 -> lengthSq (info_Ns info) = 1).
Proof.
  intros Ht Hc Hne u v n.
  eexists. split; [exact (intersectionInfo_formula m data t a b c Ht Hc)|].
  cbn [info_Ng info_Ns].
  assert (Hg : lengthSq (vneg (normalized (isect_Ng (data_isect data)))) = 1)
    by (rewrite lengthSq_vneg; apply lengthSq_normalized; exact Hne).
  split; [exact Hg|]. split.
  - intros ->. exact Hg.
  - intros -> Hn. apply lengthSq_normalized. exact Hn.
Qed.

Lemma intersect_hit_record
    (m : TriangleMesh R) (ray ray' : Ray R) (data data' : IntersectionTemporary R) :
  intersect m ray data = Returns (true, ray', data') ->
  ray' = setFarT ray (farT ray')
  /\ isect_p (data_isect data') = vadd (ray_pos ray) (vmul (ray_dir ray) (farT ray'))
  /\ isect_backSide (data_isect data')
     = Rltb 0 (dot (isect_Ng (data_isect data')) (ray_dir ray)).
Proof.
  intros Hrun. destruct (_intersector m) as [i|] eqn:Hi.
  - rewrite (intersect_run m i ray data Hi) in Hrun.
    destruct (rtcIntersect i (toERay ray)) as [h|]; [| discriminate].
    destruct (fltb (hit_distance h) (farT ray)); [| discriminate].
    injection Hrun as <- <-. repeat split.
  - unfold intersect in Hrun. rewrite Hi in Hrun. discriminate.
Qed.

(** The back-face flag against the normal that is reported.  [intersect]
    sets the flag when the oracle's normal points along the ray;
    [intersectionInfo] reports the opposite of the oracle's normal as the
    geometric normal.  So the flag is set exactly when the ray runs against
    the reported geometric normal, and clear when it runs along it. *)
Theorem backSide_is_set_against_the_reported_normal
    (m : TriangleMesh R) (ray ray' : Ray R) (data data' : IntersectionTemporary R)
    (info : IntersectionInfo R) :
  intersect m ray data = Returns (true, ray', data') ->
  intersectionInfo m data' = Returns info ->
  lengthSq (isect_Ng (data_isect data')) <> 0 ->
  (hitBackside data' = true <-> dot (info_Ng info) (ray_dir ray) < 0)
  /\ (hitBackside data' = false <-> 0 <= dot (info_Ng info) (ray_dir ray)).
Proof.
  intros Hrun Hinfo Hne.
  destruct (intersect_hit_record m ray ray' data data' Hrun) as (_ & _ & Hback).
  destruct (intersectionInfo_Ng m data' info Hinfo) as (-> & _).
  unfold hitBackside. rewrite Hback.
  pose proof (length_positive _ Hne) as Hs.
  rewrite dot_vneg_normalized.
  assert (Hk : 0 < 1 / length (isect_Ng (data_isect data')))
    by (apply Rdiv_lt_0_compat; lra).
  set (k := 1 / length (isect_Ng (data_isect data'))) in *.
  set (q := dot (isect_Ng (data_isect data')) (ray_dir ray)).
  split.
  - rewrite Rltb_true. split; intros H; nra.
  - rewrite Rltb_false. split; intros H; nra.
Qed.

(** The pdf of a hit the mesh has just traced, seen from the origin of the
    ray along its direction: the squared distance [inboundPdf] uses is the
    squared far bound [intersect] left in the ray, times the squared length
    of the direction. *)
Theorem inboundPdf_of_a_traced_hit
    (m : TriangleMesh R) (ray ray' : Ray R) (data data' : IntersectionTemporary R) :
  intersect m ray data = Returns (true, ray', data') ->
  inboundPdf m data' (ray_pos ray) (ray_dir ray)
  = Returns (farT ray' * farT ray' * lengthSq (ray_dir ray)
             / (- dot (ray_dir ray) (normalized (isect_Ng (data_isect data')))
                * _totalArea m)).
Proof.
  intros Hrun.
  destruct (intersect_hit_record m ray ray' data data' Hrun) as (_ & Hp & _).
  unfold inboundPdf. rewrite Hp. f_equal. simpl.
  f_equal.
  destruct (ray_pos ray) as [px py pz], (ray_dir ray) as [dx dy dz].
  unfold lengthSq, vsub, vadd, vmul. simpl. ring.
Qed.


(** *** The tangent frame *)

(** In exact arithmetic the frame [tangentSpace] returns lies in the plane
    of the triangle: tangent and bitangent are orthogonal to the cross
    product of the two edges, the normal the sampling functions use.  Their
    own cross product is that cross product divided by the determinant of
    the texture-coordinate differences, so the frame has the orientation of
    the triangle exactly when the texture coordinates are laid out with a
    positive determinant. *)
Theorem tangent_frame_lies_in_the_triangle_plane
    (m : TriangleMesh R) (data : IntersectionTemporary R)
    (t : TriangleI) (a b c : Vertex R) (T B : Vec3f R) :
  at_index (_tris m) (isect_id0 (data_isect data)) = Returns t ->
  corners (_tfVerts m) t = Returns (a, b, c) ->
  tangentSpace m data = Returns (Some (T, B)) ->
  let q1 := vsub (pos b) (pos a) in
  let q2 := vsub (pos c) (pos a) in
  let s1 := ux (uv b) - ux (uv a) in
  let t1 := uy (uv b) - uy (uv a) in
  let s2 := ux (uv c) - ux (uv a) in
  let t2 := uy (uv c) - uy (uv a) in
  dot T (cross q1 q2) = 0
  /\ dot B (cross q1 q2) = 0
  /\ cross T B = smul (1 / (s1 * t2 - s2 * t1)) (cross q1 q2).
Proof.
  intros Ht Hc Hrun q1 q2 s1 t1 s2 t2.
  rewrite (tangentSpace_formula m data t a b c Ht Hc) in Hrun.
  simpl in Hrun. fold s1 t1 s2 t2 in Hrun.
  destruct (Rltb (Rabs (s1 * t2 - s2 * t1)) (1 / 10000)) eqn:Hsmall;
    [discriminate|].
  apply Rltb_false in Hsmall.
  assert (Hdet : s1 * t2 - s2 * t1 <> 0).
  { intros H0. rewrite H0, Rabs_R0 in Hsmall. lra. }
  injection Hrun as <- <-.
  subst q1 q2. destruct (pos a), (pos b), (pos c).
  unfold dot, cross, vsub, smul, vmul. simpl.
  split; [field; exact Hdet|]. split; [field; exact Hdet|].
  f_equal; field; exact Hdet.
Qed.

(** The frame relates texture coordinates to positions over the whole
    triangle: between the first corner and the point with barycentric
    coordinates [(u, v)], the texture coordinate [uvAt] interpolates changes
    by [(ds, dt)] and the position by [u q1 + v q2], and
    [ds T + dt B = u q1 + v q2]. *)
Theorem tangent_frame_maps_texture_steps_to_positions
    (m : TriangleMesh R) (data : IntersectionTemporary R)
    (t : TriangleI) (a b c : Vertex R) (T B : Vec3f R) (u v : R) :
  at_index (_tris m) (isect_id0 (data_isect data)) = Returns t ->
  corners (_tfVerts m) t = Returns (a, b, c) ->
  tangentSpace m data = Returns (Some (T, B)) ->
  exists r,
    uvAt m (isect_id0 (data_isect data)) u v = Returns r
    /\ vadd (smul (ux r - ux (uv a)) T) (smul (uy r - uy (uv a)) B)
       = vadd (smul u (vsub (pos b) (pos a))) (smul v (vsub (pos c) (pos a))).
Proof.
  intros Ht Hc Hrun.
  destruct (tangentSpace_solves_system m data t a b c T B Ht Hc Hrun)
    as (_ & H1 & H2).
  unfold uvAt. rewrite Ht. simpl. rewrite Hc. simpl.
  eexists. split; [reflexivity|]. cbn [ux uy].
  rewrite <- H1, <- H2.
  destruct T as [Tx Ty Tz], B as [Bx By Bz], (uv a), (uv b), (uv c).
  unfold vadd, smul. simpl. f_equal; ring.
Qed.

(** For barycentric coordinates inside the triangle ([0 <= u], [0 <= v],
    [u + v <= 1]) each component of the interpolated texture coordinate lies
    between the smallest and the largest of the three corner values. *)
Theorem interpolated_uv_stays_between_the_corner_values
    (m : TriangleMesh R) (triangle : Z) (t : TriangleI) (a b c : Vertex R) (u v : R) :
  at_index (_tris m) triangle = Returns t ->
  corners (_tfVerts m) t = Returns (a, b, c) ->
  0 <= u -> 0 <= v -> u + v <= 1 ->
  exists r,
    uvAt m triangle u v = Returns r
    /\ Rmin (ux (uv a)) (Rmin (ux (uv b)) (ux (uv c))) <= ux r
       <= Rmax (ux (uv a)) (Rmax (ux (uv b)) (ux (uv c)))
    /\ Rmin (uy (uv a)) (Rmin (uy (uv b)) (uy (uv c))) <= uy r
       <= Rmax (uy (uv a)) (Rmax (uy (uv b)) (uy (uv c))).
Proof.
  intros Ht Hc Hu Hv Huv.
  unfold uvAt. rewrite Ht. simpl. rewrite Hc. simpl.
  eexists. split; [reflexivity|]. cbn [ux uy].
  assert (Hconvex : forall x0 x1 x2 : R,
             Rmin x0 (Rmin x1 x2) <= (1 - u - v) * x0 + u * x1 + v * x2
             <= Rmax x0 (Rmax x1 x2)).
  { intros x0 x1 x2.
    pose proof (Rmin_l x0 (Rmin x1 x2)). pose proof (Rmin_r x0 (Rmin x1 x2)).
    pose proof (Rmin_l x1 x2). pose proof (Rmin_r x1 x2).
    pose proof (Rmax_l x0 (Rmax x1 x2)). pose proof (Rmax_r x0 (Rmax x1 x2)).
    pose proof (Rmax_l x1 x2). pose proof (Rmax_r x1 x2).
    set (lo := Rmin x0 (Rmin x1 x2)) in *. set (hi := Rmax x0 (Rmax x1 x2)) in *.
    assert (0 <= (1 - u - v) * (x0 - lo)) by (apply Rmult_le_pos; lra).
    assert (0 <= u * (x1 - lo)) by (apply Rmult_le_pos; lra).
    assert (0 <= v * (x2 - lo)) by (apply Rmult_le_pos; lra).
    assert (0 <= (1 - u - v) * (hi - x0)) by (apply Rmult_le_pos; lra).
    assert (0 <= u * (hi - x1)) by (apply Rmult_le_pos; lra).
    assert (0 <= v * (hi - x2)) by (apply Rmult_le_pos; lra).
    split; lra. }
  split; apply Hconvex.
Qed.

(** *** Accepted samples *)






End ExactGeometry.

(** ** Edge cases in single precision *)

Section SinglePrecisionEdges.
Import Binary32.
Context {C : Collaborators binary32}.
Local Open Scope Z_scope.

Lemma SFsub_diag (x : binary32) :
  is_finite x = true -> SFsub prec emax x x = zero.
Proof.
  destruct x as [s|s| |s m e]; simpl; try discriminate; intros _.
  - destruct s; reflexivity.
  - rewrite Z.min_id, Z.sub_diag. reflexivity.
Qed.

Lemma SFmul_nan_r (x : binary32) : SFmul prec emax x nan = nan.
Proof. destruct x; reflexivity. Qed.

(** A triangle whose three corners carry the same texture coordinate (a
    mesh without texture coordinates, say) has no tangent frame: in single
    precision the determinant is exactly zero and [tangentSpace] returns
    [false]. *)
Theorem equal_texture_coordinates_give_no_tangent_frame
    (m : TriangleMesh binary32) (data : IntersectionTemporary binary32)
    (t : TriangleI) (a b c : Vertex binary32) :
  at_index (_tris m) (isect_id0 (data_isect data)) = Returns t ->
  corners (_tfVerts m) t = Returns (a, b, c) ->
  uv b = uv a ->
  uv c = uv a ->
  is_finite (ux (uv a)) = true ->
  is_finite (uy (uv a)) = true ->
  tangentSpace m data = Returns None.
Proof.
  intros Ht Hc Hb Hcc Hx Hy.
  rewrite (tangentSpace_formula m data t a b c Ht Hc).
  cbv zeta. rewrite Hb, Hcc.
  change (fsub (ux (uv a)) (ux (uv a))) with (SFsub prec emax (ux (uv a)) (ux (uv a))).
  change (fsub (uy (uv a)) (uy (uv a))) with (SFsub prec emax (uy (uv a)) (uy (uv a))).
  rewrite (SFsub_diag _ Hx), (SFsub_diag _ Hy).
  reflexivity.
Qed.

(** A reference point that lies on the light.  When the point drawn on the
    triangle is the reference point itself, the direction is 0/0: in single
    precision every component of it is NaN, the cosine is NaN, the test
    [cosTheta <= 0] fails, and [sampleInboundDirection] accepts the sample,
    with distance zero and a NaN pdf, whatever the triangle and the total
    area are. *)
Theorem reference_point_on_the_light_is_accepted
    (m : TriangleMesh binary32) (sample : LightSample binary32)
    (triSampler : Distribution1D binary32) (t : TriangleI) (a b c : Vertex binary32) :
  _triSampler m = Some triSampler ->
  at_index (_tris m) (warp triSampler (fst (next1D (sampler sample)))) = Returns t ->
  corners (_tfVerts m) t = Returns (a, b, c) ->
  uniformTriangle (fst (next2D (snd (next1D (sampler sample)))))
                  (pos a) (pos b) (pos c) = sample_p sample ->
  is_finite (vx (sample_p sample)) = true ->
  is_finite (vy (sample_p sample)) = true ->
  is_finite (vz (sample_p sample)) = true ->
  sampleInboundDirection m sample =
    Returns (true, {| sampler := snd (next2D (snd (next1D (sampler sample))));
                      sample_p := sample_p sample;
                      sample_d := Vec3 nan nan nan;
                      sample_dist := zero;
                      sample_pdf := nan |}).
Proof.
  intros Hs Ht Hc Hp Hx Hy Hz.
  rewrite (sampleInboundDirection_run m sample triSampler t a b c Hs Ht Hc).
  cbv zeta. rewrite Hp.
  set (nrm := normalized (cross (vsub (pos b) (pos a)) (vsub (pos c) (pos a)))).
  assert (HL : vsub (sample_p sample) (sample_p sample) = Vec3 zero zero zero).
  { unfold vsub.
    change (@fsub binary32 binary32_scalar) with (SFsub prec emax).
    rewrite (SFsub_diag _ Hx), (SFsub_diag _ Hy), (SFsub_diag _ Hz). reflexivity. }
  rewrite HL.
  change (lengthSq (Vec3 zero zero zero)) with zero.
  change (fsqrt zero) with zero.
  change (vdiv (Vec3 zero zero zero) zero) with (Vec3 nan nan nan).
  assert (Hdot : dot nrm (Vec3 nan nan nan) = nan).
  { unfold dot. cbn [vx vy vz].
    change (@fmul binary32 binary32_scalar) with (SFmul prec emax).
    rewrite !SFmul_nan_r. reflexivity. }
  rewrite Hdot.
  change (fleb (fneg nan) fzero) with false. cbn [negb].
  change (fmul (fneg nan) (_totalArea m)) with nan.
  reflexivity.
Qed.

End SinglePrecisionEdges.

(** ** The further properties at concrete inputs *)

Lemma mesh_without_triangles_on_the_empty_mesh :
  exists m',
    makeSamplable Scene32.empty = Returns m'
    /\ isSamplable m' = true
    /\ sampleInboundDirection m' Scene32.sample0 = Undefined.
Proof.
  destruct (proj2 (mesh_without_triangles Scene32.empty Scene32.sample0 eq_refl))
    as (m' & Hrun & _ & _ & Hs & Hin & _).
  exists m'. split; [exact Hrun|]. split; [exact Hs | exact Hin].
Defined.

Lemma square_has_triangles : _tris Scene32.square <> [].
Proof. discriminate. Defined.

Lemma makeSamplable_reads_the_transformed_vertices_on_square :
  makeSamplable Scene32.square = Undefined.
Proof.
  exact (proj1 (makeSamplable_reads_the_transformed_vertices
                  Scene32.square square_has_triangles eq_refl)).
Defined.

Lemma square_is_prepared :
  prepareForRender Scene32.square = Returns Scene32.squarePrepared.
Proof. reflexivity. Defined.

Lemma makeSamplable_keeps_the_prepared_area_on_square :
  exists m'',
    makeSamplable Scene32.squarePrepared = Returns m''
    /\ _totalArea m'' = _totalArea Scene32.squarePrepared
    /\ _totalArea m'' = one.
Proof.
  destruct (makeSamplable_keeps_the_prepared_area
              Scene32.square Scene32.squarePrepared square_is_prepared)
    as (areas & Hrun & _).
  eexists. split; [exact Hrun|]. split; reflexivity.
Defined.

Lemma oracle_triangle_ids_index_the_triangles_on_square :
  exists ts,
    List.length ts = 2%nat
    /\ at_index ts 1 = Returns (mkRTCTriangle 1 3 2 1 0).
Proof.
  destruct (oracle_triangle_ids_index_the_triangles
              Scene32.square Scene32.squarePrepared square_is_prepared)
    as (ts & _ & _ & Hlen & Hnth & _).
  exists ts. split; [exact Hlen|].
  exact (Hnth 1%Z (mkTriangleI 1 3 2) eq_refl).
Defined.

Lemma square_is_reachable : reachable Scene32.squareReady.
Proof.
  apply (reach_step Scene32.squarePrepared).
  - apply (reach_step Scene32.square).
    + exact (@reach_new binary32 binary32_scalar Scene32.collaborators
               (Scene32.vec 0 0 0) (Scene32.f32 7 0) tt
               [Scene32.vertex 0 0; Scene32.vertex 1 0; Scene32.vertex 0 1;
                Scene32.vertex 1 1]
               [mkTriangleI 0 1 2; mkTriangleI 1 3 2] true).
    + exact (step_prepareForRender Scene32.square Scene32.squarePrepared
               square_is_prepared).
  - apply step_makeSamplable. reflexivity.
Defined.

Lemma reachable_meshes_are_consistent_on_square :
  consistent Scene32.squareReady
  /\ sumOf [half; half] = _totalArea Scene32.squareReady.
Proof.
  split.
  - exact (reachable_meshes_are_consistent Scene32.squareReady square_is_reachable).
  - reflexivity.
Defined.

Lemma square_is_made_ready :
  clos_refl_trans (TriangleMesh binary32) step Scene32.square Scene32.squareReady.
Proof.
  apply rt_trans with (y := Scene32.squarePrepared); apply rt_step.
  - exact (step_prepareForRender Scene32.square Scene32.squarePrepared
               square_is_prepared).
  - apply step_makeSamplable. reflexivity.
Defined.

Lemma no_call_changes_the_geometry_on_square :
  verts Scene32.squareReady = verts Scene32.square
  /\ tris Scene32.squareReady = tris Scene32.square
  /\ isDirty Scene32.squareReady = true.
Proof.
  destruct (no_call_changes_the_geometry Scene32.square Scene32.squareReady
              square_is_made_ready) as (Hv & Ht & _ & Hd & _).
  split; [exact Hv|]. split; [exact Ht | exact (Hd eq_refl)].
Defined.

Lemma prepare_after_cleanup_restores_the_mesh_on_square :
  prepareForRender (cleanupAfterRender Scene32.squarePrepared)
  = Returns Scene32.squarePrepared
  /\ prepareForRender (cleanupAfterRender Scene32.squareReady)
     = Returns Scene32.squareReady.
Proof.
  destruct (prepare_after_cleanup_restores_the_mesh
              Scene32.square Scene32.squarePrepared Scene32.squareReady
              square_is_prepared) as [Hprepared Hready].
  split; [exact Hprepared | exact (Hready eq_refl)].
Defined.

Lemma hit0_has_a_normal : lengthSq (isect_Ng (data_isect SceneR.hit0)) <> 0%R.
Proof.
  cbv [SceneR.hit0 data_isect isect_Ng lengthSq vx vy vz fadd fmul real_scalar].
  intros H. lra.
Defined.

Lemma reported_normals_have_unit_length_on_square :
  exists info,
    intersectionInfo SceneR.square SceneR.hit0 = Returns info
    /\ lengthSq (info_Ng info) = 1%R.
Proof.
  destruct (reported_normals_have_unit_length
              SceneR.square SceneR.hit0 (mkTriangleI 0 1 2)
              (SceneR.vertex 0 0) (SceneR.vertex 1 0) (SceneR.vertex 0 1)
              eq_refl eq_refl hit0_has_a_normal)
    as (info & Hrun & Hunit & _).
  exists info. split; [exact Hrun | exact Hunit].
Defined.

(** The reference oracle's answer for [SceneR.ray0]: a hit on triangle 0 at
    distance 1 with the normal (0, 0, -1). *)
Lemma ray0_is_answered :
  exists h,
    @rtcIntersect R SceneR.collaborators SceneR.geometry (toERay SceneR.ray0) = Some h
    /\ hit_distance h = 1%R
    /\ hit_normal h = Vec3 0%R 0%R (-1)%R
    /\ hit_id0 h = 0%Z.
Proof.
  cbv [rtcIntersect SceneR.collaborators Reference.collaborators Reference.mtIntersect
       SceneR.geometry triangleBuffer fst snd map Reference.nearest Reference.hitTriangle
       Reference.vertexAt SceneR.corners4 SceneR.vertex pos nth Z.to_nat Pos.to_nat
       Pos.iter_op Nat.add rtc_v0 rtc_v1 rtc_v2 rtc_id0 rtc_id1 Z.add Pos.add Pos.succ
       toERay SceneR.ray0 ray_pos ray_dir nearT farT e_org e_dir e_tnear e_tfar
       v0 v1 v2 cross dot vsub vx vy vz
       fzero fone fsub fmul fadd fdiv fneg fabs fltb fleb real_scalar].
  repeat match goal with
         | |- context [Rabs ?e] =>
             first [ rewrite (Rabs_pos_eq e) by lra | rewrite (Rabs_left1 e) by lra ]
         end.
  repeat match goal with
         | |- context [Rltb ?a ?b] =>
             first [ rewrite (proj2 (Rltb_true a b)) by lra
                   | rewrite (proj2 (Rltb_false a b)) by lra ]
         end.
  repeat match goal with
         | |- context [Rleb ?a ?b] =>
             replace (Rleb a b) with true
               by (unfold Rleb; destruct (Rle_dec a b); [reflexivity | exfalso; lra])
         end.
  cbv [andb]. cbv beta iota.
  eexists. split; [reflexivity|]. cbn [hit_distance hit_normal hit_id0].
  split; [field_simplify; lra|]. split; [f_equal; lra | reflexivity].
Qed.

(** [intersect] reports that hit. *)
Lemma ray0_hits_the_triangle :
  exists h,
    intersect SceneR.triangleTraced SceneR.ray0 SceneR.noHit
    = Returns (true, setFarT SceneR.ray0 (hit_distance h),
               recordOf SceneR.triangleTraced SceneR.ray0 h)
    /\ hit_distance h = 1%R
    /\ hit_normal h = Vec3 0%R 0%R (-1)%R
    /\ hit_id0 h = 0%Z.
Proof.
  destruct ray0_is_answered as (h & Hans & Hd & Hn & Hid).
  exists h. split; [| split; [exact Hd | split; [exact Hn | exact Hid]]].
  rewrite (intersect_run SceneR.triangleTraced SceneR.geometry SceneR.ray0
             SceneR.noHit eq_refl).
  rewrite Hans, Hd.
  assert (Hnear : fltb 1%R (farT SceneR.ray0) = true)
    by (apply Rltb_true; cbn [farT SceneR.ray0]; lra).
  rewrite Hnear. reflexivity.
Qed.

Lemma traced_hit_has_a_normal (h : OracleHit R) :
  hit_normal h = Vec3 0%R 0%R (-1)%R ->
  lengthSq (isect_Ng (data_isect (recordOf SceneR.triangleTraced SceneR.ray0 h))) <> 0%R.
Proof.
  intros Hn. cbn [recordOf data_isect isect_Ng]. rewrite Hn.
  cbv [lengthSq vx vy vz fadd fmul real_scalar]. intros H. lra.
Qed.

Lemma backSide_is_set_against_the_reported_normal_on_triangle :
  exists data' info,
    intersectionInfo SceneR.triangleTraced data' = Returns info
    /\ (hitBackside data' = true
        <-> (dot (info_Ng info) (ray_dir SceneR.ray0) < 0)%R).
Proof.
  destruct ray0_hits_the_triangle as (h & Hrun & _ & Hn & Hid).
  assert (Ht : at_index (_tris SceneR.triangleTraced)
                 (isect_id0 (data_isect (recordOf SceneR.triangleTraced SceneR.ray0 h)))
               = Returns (mkTriangleI 0 1 2)).
  { cbn [recordOf data_isect isect_id0]. rewrite Hid. reflexivity. }
  pose proof (intersectionInfo_formula SceneR.triangleTraced
                (recordOf SceneR.triangleTraced SceneR.ray0 h) (mkTriangleI 0 1 2)
                (SceneR.vertex 0 0) (SceneR.vertex 1 0) (SceneR.vertex 0 1)
                Ht eq_refl) as Hinfo.
  cbv zeta in Hinfo.
  eexists. eexists. split; [exact Hinfo|].
  exact (proj1 (backSide_is_set_against_the_reported_normal
                  SceneR.triangleTraced SceneR.ray0 _ SceneR.noHit _ _
                  Hrun Hinfo (traced_hit_has_a_normal h Hn))).
Defined.

Lemma inboundPdf_of_a_traced_hit_on_triangle :
  exists ray' data' pdf',
    intersect SceneR.triangleTraced SceneR.ray0 SceneR.noHit
    = Returns (true, ray', data')
    /\ farT ray' = 1%R
    /\ inboundPdf SceneR.triangleTraced data' (ray_pos SceneR.ray0) (ray_dir SceneR.ray0)
       = Returns pdf'.
Proof.
  destruct ray0_hits_the_triangle as (h & Hrun & Hd & _).
  eexists. eexists. eexists. split; [exact Hrun|]. split; [exact Hd|].
  exact (inboundPdf_of_a_traced_hit SceneR.triangleTraced SceneR.ray0 _
           SceneR.noHit _ Hrun).
Defined.

Lemma square_has_a_tangent_frame :
  exists T B, tangentSpace SceneR.square SceneR.hit0 = Returns (Some (T, B)).
Proof.
  rewrite (tangentSpace_formula SceneR.square SceneR.hit0 (mkTriangleI 0 1 2)
             (SceneR.vertex 0 0) (SceneR.vertex 1 0) (SceneR.vertex 0 1)
             eq_refl eq_refl).
  cbv zeta.
  match goal with
  | |- context [flt_1em4 ?x] => assert (Hg : flt_1em4 x = false)
  end.
  { apply Rltb_false.
    cbv [SceneR.vertex uv ux uy fabs fsub fmul real_scalar].
    replace (((1 - 0) * (1 - 0) - (0 - 0) * (0 - 0)))%R with 1%R by ring.
    rewrite Rabs_R1. lra. }
  rewrite Hg. eexists. eexists. reflexivity.
Qed.

Lemma tangent_frame_lies_in_the_triangle_plane_on_square :
  exists T B,
    tangentSpace SceneR.square SceneR.hit0 = Returns (Some (T, B))
    /\ dot T (cross (vsub (pos (SceneR.vertex 1 0)) (pos (SceneR.vertex 0 0)))
                    (vsub (pos (SceneR.vertex 0 1)) (pos (SceneR.vertex 0 0)))) = 0%R.
Proof.
  destruct square_has_a_tangent_frame as (T & B & Hrun).
  exists T, B. split; [exact Hrun|].
  exact (proj1 (tangent_frame_lies_in_the_triangle_plane
                  SceneR.square SceneR.hit0 (mkTriangleI 0 1 2)
                  (SceneR.vertex 0 0) (SceneR.vertex 1 0) (SceneR.vertex 0 1) T B
                  eq_refl eq_refl Hrun)).
Defined.

Lemma tangent_frame_maps_texture_steps_to_positions_on_square :
  exists T B r,
    tangentSpace SceneR.square SceneR.hit0 = Returns (Some (T, B))
    /\ uvAt SceneR.square 0 (1 / 4)%R (1 / 2)%R = Returns r
    /\ vadd (smul (ux r - 0)%R T) (smul (uy r - 0)%R B)
       = vadd (smul (1 / 4)%R (vsub (pos (SceneR.vertex 1 0)) (pos (SceneR.vertex 0 0))))
              (smul (1 / 2)%R (vsub (pos (SceneR.vertex 0 1)) (pos (SceneR.vertex 0 0)))).
Proof.
  destruct square_has_a_tangent_frame as (T & B & Hrun).
  destruct (tangent_frame_maps_texture_steps_to_positions
              SceneR.square SceneR.hit0 (mkTriangleI 0 1 2)
              (SceneR.vertex 0 0) (SceneR.vertex 1 0) (SceneR.vertex 0 1) T B
              (1 / 4)%R (1 / 2)%R eq_refl eq_refl Hrun) as (r & Hr & Hmap).
  exists T, B, r. split; [exact Hrun|]. split; [exact Hr | exact Hmap].
Defined.

Lemma quarter_quarter_is_inside : (0 <= 1 / 4 /\ 0 <= 1 / 4 /\ 1 / 4 + 1 / 4 <= 1)%R.
Proof. repeat split; lra. Defined.

Lemma interpolated_uv_stays_between_the_corner_values_on_square :
  exists r,
    uvAt SceneR.square 0 (1 / 4)%R (1 / 4)%R = Returns r
    /\ (Rmin 0 (Rmin 1 0) <= ux r <= Rmax 0 (Rmax 1 0))%R.
Proof.
  destruct (interpolated_uv_stays_between_the_corner_values
              SceneR.square 0%Z (mkTriangleI 0 1 2)
              (SceneR.vertex 0 0) (SceneR.vertex 1 0) (SceneR.vertex 0 1)
              (1 / 4)%R (1 / 4)%R eq_refl eq_refl
              (proj1 quarter_quarter_is_inside)
              (proj1 (proj2 quarter_quarter_is_inside))
              (proj2 (proj2 quarter_quarter_is_inside)))
    as (r & Hr & Hx & _).
  exists r. split; [exact Hr | exact Hx].
Defined.






Lemma equal_texture_coordinates_give_no_tangent_frame_on_collapsed :
  tangentSpace Scene32.collapsedReady Scene32.noHit = Returns None.
Proof.
  exact (equal_texture_coordinates_give_no_tangent_frame
           Scene32.collapsedReady Scene32.noHit (mkTriangleI 0 1 2)
           (Scene32.vertex 0 0) (Scene32.vertex 0 0) (Scene32.vertex 0 0)
           eq_refl eq_refl eq_refl eq_refl eq_refl eq_refl).
Defined.

Lemma reference_point_on_the_light_is_accepted_on_square :
  exists sample',
    sampleInboundDirection Scene32.squareReady Scene32.onTheLight = Returns (true, sample')
    /\ sample_dist sample' = zero
    /\ sample_pdf sample' = nan.
Proof.
  eexists. split.
  - exact (reference_point_on_the_light_is_accepted
             Scene32.squareReady Scene32.onTheLight
             (mkDistribution1D [half; half]) (mkTriangleI 0 1 2)
             (Scene32.vertex 0 0) (Scene32.vertex 1 0) (Scene32.vertex 0 1)
             eq_refl eq_refl eq_refl eq_refl eq_refl eq_refl eq_refl).
  - split; reflexivity.
Defined.
